(** * Drift-detection handshake: the two Lambda handlers

    A shallow embedding of
    - [src/prereq-stack/lambda/drift-detect-lambda/index.ts] (the scan
      initiator invoked by CodePipeline), and
    - [src/prereq-stack/lambda/callback-lambda/index.ts] (the completion
      handler triggered by the EventBridge rule),
    together with the DynamoDB table declared in [src/prereq-stack/stack.ts]
    (partition key [pk], sort key [sk], both strings).

    Every call that leaves the process (CloudFormation, DynamoDB,
    CodePipeline, console) is recorded in a trace, the table is explicit
    state, and the replies of the services are parameters of a run. *)

From Stdlib Require Import Ascii String.
From stdpp Require Import base option list strings gmap.

Local Open Scope string_scope.

(** ** JavaScript strings and arrays *)

Module Js.

(** [s.split(sep)] for a one-character separator: never empty, and
    [''.split(sep)] is [['']]. *)
Fixpoint split (sep : ascii) (s : string) : list string :=
  match s with
  | EmptyString => [EmptyString]
  | String c rest =>
      if Ascii.eqb c sep then EmptyString :: split sep rest
      else match split sep rest with
           | piece :: pieces => String c piece :: pieces
           | [] => [String c EmptyString]
           end
  end.

(** [arr.pop()] as an expression: the last element, [undefined] ([None])
    on an empty array. *)
Definition pop (arr : list string) : option string := last arr.

(** Does the character occur in the string? *)
Fixpoint occurs (c : ascii) (s : string) : bool :=
  match s with
  | EmptyString => false
  | String d rest => Ascii.eqb d c || occurs c rest
  end.

(** [haystack.includes(needle)] on strings. *)
Fixpoint includes (needle haystack : string) : bool :=
  String.prefix needle haystack
  || match haystack with
     | EmptyString => false
     | String _ rest => includes needle rest
     end.

(** A value interpolated in a template literal: [undefined] prints as the
    nine letters. *)
Definition interpolate (v : option string) : string := default "undefined" v.

(** The double-quote character, as a string. *)
Definition quote : string := String (Ascii.ascii_of_nat 34) EmptyString.

(** Truthiness of a [string | undefined]. *)
Definition truthy (v : option string) : bool :=
  match v with
  | Some s => negb (String.eqb s EmptyString)
  | None => false
  end.

End Js.

(** ** callback-lambda: [extractStackNameFromArn] *)

Definition extractStackNameFromArn (stackArn : string) : option string :=
  let stackItems := Js.split ":" stackArn in
  let stackId := Js.pop stackItems in
  let stackIdItems := Js.split "/" <$> stackId in
  match stackIdItems with
  | Some items => items !! 1%nat
  | None => Some EmptyString
  end.

(** The spec's wording of the same function: the second slash-delimited
    segment of the last colon-delimited segment. *)
Definition second_segment_of_last (arn : string) : option string :=
  nth_error (Js.split "/" (List.last (Js.split ":" arn) EmptyString)) 1.

(** ** Thrown values

    What the handlers look at in a caught value is [err.name], [err.Code]
    and [JSON.stringify(err)].  A rejection of an SDK call carries all three
    as the service produced them.  A native error object ([new Error(m)], or a
    [TypeError] raised by the runtime) inherits [name] from its prototype,
    has no [Code], and its own properties [message] and [stack] are not
    enumerable, so [JSON.stringify] prints it as an empty object. *)

Inductive JsThrown : Type :=
| SdkException (name Code : option string) (json : string)
| NativeError (name message : string).

Definition new_Error (message : string) : JsThrown := NativeError "Error" message.

Definition TypeError (message : string) : JsThrown := NativeError "TypeError" message.

Definition err_name (err : JsThrown) : option string :=
  match err with
  | SdkException name _ _ => name
  | NativeError name _ => Some name
  end.

Definition err_Code (err : JsThrown) : option string :=
  match err with
  | SdkException _ Code _ => Code
  | NativeError _ _ => None
  end.

Definition JSON_stringify (err : JsThrown) : string :=
  match err with
  | SdkException _ _ json => json
  | NativeError _ _ => "{}"
  end.

(** [err.name == 'ValidationError' || err.Code == 'ValidationError'] *)
Definition is_ValidationError (err : JsThrown) : bool :=
  bool_decide (err_name err = Some "ValidationError")
  || bool_decide (err_Code err = Some "ValidationError").

(** ** The world outside the handler *)

Inductive LogLevel : Type := Info | Debug | Error.

(** A console line is a literal text, or the [JSON.stringify] dump of a
    named local whose content plays no role in the control flow. *)
Inductive LogText : Type :=
| Text (s : string)
| Dump (variable : string).

Record FailureDetails : Type := {
  message : string;
  type : string;
}.

Inductive Call : Type :=
| Console (level : LogLevel) (text : LogText)
| DescribeStacks (StackName : option string)
| DetectStackDrift (StackName : option string)
| PutItem (Item : gmap string string)
| GetItem (pk : string) (sk : string)
| PutJobSuccessResult (jobId : string)
| PutJobFailureResult (jobId : string) (failureDetails : FailureDetails).

(** The table of [stack.ts]: items (attribute name to [S] value) under the
    composite primary key ([pk], [sk]). *)
Record World : Type := {
  table : gmap (string * string) (gmap string string);
  trace : list Call;
}.

Definition is_callback (c : Call) : bool :=
  match c with
  | PutJobSuccessResult _ | PutJobFailureResult _ _ => true
  | _ => false
  end.

Definition is_PutItem (c : Call) : bool :=
  match c with PutItem _ => true | _ => false end.

Definition is_GetItem (c : Call) : bool :=
  match c with GetItem _ _ => true | _ => false end.

(** The pipeline callbacks, store writes and store reads of a trace, in
    order. *)
Definition callbacks (t : list Call) : list Call := List.filter is_callback t.
Definition writes (t : list Call) : list Call := List.filter is_PutItem t.
Definition reads (t : list Call) : list Call := List.filter is_GetItem t.

(** ** Replies of the services *)

Inductive Reply (A : Type) : Type :=
| Resolved (a : A)
| Rejected (err : JsThrown).
Arguments Resolved {A} a.
Arguments Rejected {A} err.

Record Stack : Type := {
  StackName : option string;
  StackStatus : option string;
}.

Record DescribeStacksCommandOutput : Type := {
  Stacks : option (list Stack);
}.

Record DetectStackDriftCommandOutput : Type := {
  StackDriftDetectionId : option string;
}.

(** What the services answer during one invocation.  A pipeline call is
    identified by how many pipeline calls the invocation has made before
    it. *)
Record Services : Type := {
  describeStacks_reply : option string -> Reply DescribeStacksCommandOutput;
  detectStackDrift_reply : option string -> Reply DetectStackDriftCommandOutput;
  putItem_fault : option JsThrown;
  getItem_fault : option JsThrown;
  pipeline_fault : nat -> option JsThrown;
}.

(** ** The handler monad: state, exceptions and early [return] *)

Inductive Completion (A : Type) : Type :=
| Normal (a : A)
| Return
| Throw (err : JsThrown).
Arguments Normal {A} a.
Arguments Return {A}.
Arguments Throw {A} err.

Definition M (A : Type) : Type := World -> Completion A * World.

#[global] Instance M_ret : MRet M := fun A a w => (Normal a, w).

#[global] Instance M_bind : MBind M := fun A B k m w =>
  match m w with
  | (Normal a, w') => k a w'
  | (Return, w') => (Return, w')
  | (Throw err, w') => (Throw err, w')
  end.

Definition throw {A} (err : JsThrown) : M A := fun w => (Throw err, w).

(** A [return;] statement of the handler. *)
Definition return_ {A} : M A := fun w => (Return, w).

(** [try { body } catch (err) { handler }]: a [return] inside [body]
    leaves the function and is not seen by the [catch]. *)
Definition try_catch {A} (body : M A) (handler : JsThrown -> M A) : M A :=
  fun w =>
    match body w with
    | (Throw err, w') => handler err w'
    | done => done
    end.

Definition call (c : Call) : M unit :=
  fun w => (Normal (), {| table := table w; trace := trace w ++ [c] |}).

Definition await {A} (c : Call) (reply : Reply A) : M A :=
  call c;;
  match reply with
  | Resolved a => mret a
  | Rejected err => throw err
  end.

Definition console_info (s : string) : M unit := call (Console Info (Text s)).
Definition console_error (s : string) : M unit := call (Console Error (Text s)).
Definition console_debug (s : string) : M unit := call (Console Debug (Text s)).
Definition console_dump (level : LogLevel) (variable : string) : M unit :=
  call (Console level (Dump variable)).

(** *** CloudFormation client *)

Definition describeStacks (svc : Services) (name : option string)
  : M DescribeStacksCommandOutput :=
  await (DescribeStacks name) (describeStacks_reply svc name).

Definition detectStackDrift (svc : Services) (name : option string)
  : M DetectStackDriftCommandOutput :=
  await (DetectStackDrift name) (detectStackDrift_reply svc name).

(** *** DynamoDB client

    [putItem] replaces whatever item the table holds under the same
    ([pk], [sk]); [getItem] reads the item under exactly that pair. *)

Definition putItem (svc : Services) (pk sk : string) (Item : gmap string string)
  : M unit :=
  call (PutItem Item);;
  match putItem_fault svc with
  | Some err => throw err
  | None => fun w =>
      (Normal (), {| table := <[(pk, sk) := Item]> (table w); trace := trace w |})
  end.

Definition getItem (svc : Services) (pk sk : string)
  : M (option (gmap string string)) :=
  call (GetItem pk sk);;
  match getItem_fault svc with
  | Some err => throw err
  | None => fun w => (Normal (table w !! (pk, sk)), w)
  end.

(** *** CodePipeline client *)

Definition pipeline_reply (svc : Services) (w : World) : Reply unit :=
  match pipeline_fault svc (length (callbacks (trace w))) with
  | Some err => Rejected err
  | None => Resolved ()
  end.

Definition putJobSuccessResult (svc : Services) (jobId : string) : M unit :=
  fun w => await (PutJobSuccessResult jobId) (pipeline_reply svc w) w.

Definition putJobFailureResult (svc : Services) (jobId : string)
    (details : FailureDetails) : M unit :=
  fun w => await (PutJobFailureResult jobId details) (pipeline_reply svc w) w.

(** Both [index.ts] files carry the same two helpers. *)
Definition sendSuccess (svc : Services) (jobId : string) : M unit :=
  putJobSuccessResult svc jobId;;
  console_dump Debug "response".

Definition sendFailure (svc : Services) (jobId : string)
    (details : FailureDetails) : M unit :=
  putJobFailureResult svc jobId details;;
  console_dump Debug "response".

(** ** One Lambda invocation *)

Inductive Outcome : Type :=
| Fulfilled
| Failed (err : JsThrown).

(** An invocation starts on the table as it stands and with nothing done
    yet; the promise of the [async] handler is fulfilled when its body ends
    or [return]s, and rejected when a throw escapes. *)
Definition invoke (h : M unit) (store : gmap (string * string) (gmap string string))
  : Outcome * World :=
  match h {| table := store; trace := [] |} with
  | (Throw err, w) => (Failed err, w)
  | (_, w) => (Fulfilled, w)
  end.

(** ** drift-detect-lambda/index.ts *)

Module DriftDetect.

(** The action's [UserParameters], as [JSON.parse] returns them; a field
    the pipeline did not set is [undefined]. *)
Record Params : Type := {
  account : option string;
  region : option string;
  stackName : option string;
}.

(** The part of the CodePipeline job event the handler reads. *)
Record JobEvent : Type := {
  id : string;
  UserParameters : Params;
}.

Definition allowed_dd_status_list : list string :=
  [ "CREATE_COMPLETE";
    "UPDATE_COMPLETE";
    "UPDATE_ROLLBACK_COMPLETE";
    "UPDATE_ROLLBACK_FAILED" ].

(** [Stacks && Stacks.length > 0 && Stacks[0].StackName == params.stackName] *)
Definition stack_found (stacksOutput : DescribeStacksCommandOutput)
    (params : Params) : option Stack :=
  match Stacks stacksOutput with
  | Some (first :: _) =>
      if bool_decide (StackName first = stackName params) then Some first else None
  | _ => None
  end.

(** [StackStatus && allowed_dd_status_list.includes(StackStatus)] *)
Definition status_allowed (first : Stack) : bool :=
  Js.truthy (StackStatus first)
  && bool_decide (default EmptyString (StackStatus first) ∈ allowed_dd_status_list).

(** [`${params.account}#${params.region}#${params.stackName}`] *)
Definition pk_of (params : Params) : string :=
  Js.interpolate (account params) +:+ "#" +:+ Js.interpolate (region params)
  +:+ "#" +:+ Js.interpolate (stackName params).

Definition item_of (params : Params) (driftDetectionId jobId : string)
  : gmap string string :=
  <["pk" := pk_of params]>
    (<["sk" := driftDetectionId]>
       (<["pipeline_job_id" := jobId]> ∅)).

Definition JobFailed (err : JsThrown) : FailureDetails :=
  {| message := JSON_stringify err; type := "JobFailed" |}.

Definition handler (svc : Services) (event : JobEvent) : M unit :=
  console_dump Info "event";;
  let jobId := id event in
  let params := UserParameters event in
  (* Check if stack exists *)
  console_info "Check if the stack exists";;
  stacksOutput ←
    try_catch
      (out ← describeStacks svc (stackName params);
       console_dump Debug "stacksOutput";;
       mret out)
      (λ err,
        console_error (JSON_stringify err);;
        (if is_ValidationError err then
           console_info "Stack does not exist. Send success";;
           sendSuccess svc jobId
         else
           console_info "Send failure";;
           sendFailure svc jobId (JobFailed err));;
        return_);
  (* Prepare for drift detection *)
  driftResp ←
    try_catch
      (match stack_found stacksOutput params with
       | Some first =>
           console_info "Stack exists, now check for the stack status";;
           if status_allowed first then
             console_info "Stack Status allows for drift detection";;
             resp ← detectStackDrift svc (stackName params);
             console_dump Debug "driftResp";;
             mret resp
           else
             console_info "Stack status does not allow for drift detection";;
             sendSuccess svc jobId;;
             return_
       | None =>
           let message := "Unknown error: Check DescribeStacks output" in
           console_error message;;
           throw (new_Error message)
       end)
      (λ err,
        console_error (JSON_stringify err);;
        (if is_ValidationError err then
           console_info "Cannot start drift detection. Send success";;
           sendSuccess svc jobId
         else
           console_info "Send failure";;
           sendFailure svc jobId (JobFailed err));;
        return_);
  (* Log data into dynamodb *)
  try_catch
    (if Js.truthy (StackDriftDetectionId driftResp) then
       let driftDetectionId := default EmptyString (StackDriftDetectionId driftResp) in
       console_debug
         ("Drift detection started. DriftDetectionId: " +:+ driftDetectionId);;
       putItem svc (pk_of params) driftDetectionId
         (item_of params driftDetectionId jobId)
     else
       let message := "Unknown error: Drift detection id missing" in
       console_error message;;
       throw (new_Error message))
    (λ err,
      console_error (JSON_stringify err);;
      console_info "Send failure";;
      sendFailure svc jobId (JobFailed err);;
      return_);;
  return_.

End DriftDetect.

(** ** callback-lambda/index.ts *)

Module Callback.

Record StatusDetails : Type := {
  stack_drift_status : string;
}.

Record Detail : Type := {
  stack_id : string;
  stack_drift_detection_id : string;
  status_details : StatusDetails;
}.

(** The part of the EventBridge event the handler reads. *)
Record ScanEvent : Type := {
  detail_type : string;
  account : string;
  region : string;
  detail : Detail;
}.

(** [`${stackAccount}#${stackRegion}#${stackName}`] *)
Definition pk_of (event : ScanEvent) : string :=
  account event +:+ "#" +:+ region event +:+ "#"
  +:+ Js.interpolate (extractStackNameFromArn (stack_id (detail event))).

Definition fetchCallbackDetails (svc : Services) (event : ScanEvent)
  : M (option string) :=
  console_info "Fetch callback details";;
  let driftDetectId := stack_drift_detection_id (detail event) in
  try_catch
    (resp ← getItem svc (pk_of event) driftDetectId;
     console_dump Debug "resp";;
     match resp with
     | Some Item =>
         match Item !! "pipeline_job_id" with
         | Some jobId => mret (Some jobId)
         | None =>
             throw (TypeError "Cannot read properties of undefined (reading 'S')")
         end
     | None => mret None
     end)
    (λ err,
      console_error (JSON_stringify err);;
      mret None).

Definition drift_message (event : ScanEvent) : string :=
  "Stack " +:+ stack_id (detail event)
  +:+ " has DRIFTED from its template configuration".

Definition handler (svc : Services) (event : ScanEvent) : M unit :=
  console_dump Info "event";;
  (if String.eqb (detail_type event) "CloudFormation Drift Detection Status Change"
   then
     found ← fetchCallbackDetails svc event;
     if Js.truthy found then
       let jobId := default EmptyString found in
       if String.eqb (stack_drift_status (status_details (detail event))) "DRIFTED"
       then
         let message := drift_message event in
         console_info message;;
         console_info "Send failure";;
         sendFailure svc jobId {| message := message; type := "JobFailed" |}
       else if String.eqb (stack_drift_status (status_details (detail event)))
                 "IN_SYNC"
       then
         console_info "Send success";;
         sendSuccess svc jobId
       else mret ()
     else
       console_error "Drift detection event details does not match with db record"
   else console_error "Event detail type not supported.");;
  return_.

End Callback.

(** ** Vocabulary of the properties *)

(** A computation whose completion and calls do not depend on the table it
    starts from, and which never issues a [GetItem]. *)
Definition store_oblivious {A} (m : M A) : Prop :=
  forall w1 w2, trace w1 = trace w2 ->
    (m w1).1 = (m w2).1 /\
    trace (m w1).2 = trace (m w2).2 /\
    reads (trace (m w1).2) = reads (trace w1).

(** What a pipeline callback tells which job: [true] for success, [false]
    for failure. *)
Definition verdict (c : Call) : option (bool * string) :=
  match c with
  | PutJobSuccessResult jobId => Some (true, jobId)
  | PutJobFailureResult jobId _ => Some (false, jobId)
  | _ => None
  end.

Definition verdicts (t : list Call) : list (bool * string) :=
  omap verdict t.

(** ** Concrete runs used in the examples below *)

Module Sample.

Definition stable_stack (name status : string) : DescribeStacksCommandOutput :=
  {| Stacks := Some [ {| StackName := Some name; StackStatus := Some status |} ] |}.

(** Services that give the same answers whatever they are asked, and a
    table that takes every read and write. *)
Definition services (described : Reply DescribeStacksCommandOutput)
    (scan : Reply DetectStackDriftCommandOutput)
    (pipeline : nat -> option JsThrown) : Services :=
  {| describeStacks_reply := fun _ => described;
     detectStackDrift_reply := fun _ => scan;
     putItem_fault := None;
     getItem_fault := None;
     pipeline_fault := pipeline |}.

Definition reliable (n : nat) : option JsThrown := None.

(** The first pipeline call of the invocation is rejected with [err]. *)
Definition first_rejected (err : JsThrown) (n : nat) : option JsThrown :=
  match n with
  | O => Some err
  | S _ => None
  end.

(** The stack [example-stack] in the given status; a scan of it returns
    [scanId]. *)
Definition example_stack (status : string) (scanId : option string)
    (pipeline : nat -> option JsThrown) : Services :=
  services (Resolved (stable_stack "example-stack" status))
           (Resolved {| StackDriftDetectionId := scanId |}) pipeline.

(** An SDK rejection that prints as an object with its [name] only. *)
Definition named (name : string) : JsThrown :=
  SdkException (Some name) None
    ("{" +:+ Js.quote +:+ "name" +:+ Js.quote +:+ ":"
     +:+ Js.quote +:+ name +:+ Js.quote +:+ "}").

Definition job (jobId : string) : DriftDetect.JobEvent :=
  {| DriftDetect.id := jobId;
     DriftDetect.UserParameters :=
       {| DriftDetect.account := Some "123456789012";
          DriftDetect.region := Some "ap-northeast-2";
          DriftDetect.stackName := Some "example-stack" |} |}.

Definition scan_result (arn scanId status : string) : Callback.ScanEvent :=
  {| Callback.detail_type := "CloudFormation Drift Detection Status Change";
     Callback.account := "123456789012";
     Callback.region := "ap-northeast-2";
     Callback.detail :=
       {| Callback.stack_id := arn;
          Callback.stack_drift_detection_id := scanId;
          Callback.status_details := {| Callback.stack_drift_status := status |} |} |}.

Definition arn : string :=
  "arn:aws:cloudformation:ap-northeast-2:123456789012:stack/example-stack/11111111".

Definition record (scanId jobId : string) : gmap string string :=
  DriftDetect.item_of (DriftDetect.UserParameters (job jobId)) scanId jobId.

(** A table holding one correlation record. *)
Definition one_record (scanId jobId : string)
  : gmap (string * string) (gmap string string) :=
  {[ ("123456789012#ap-northeast-2#example-stack", scanId) := record scanId jobId ]}.

End Sample.
(** ** Further vocabulary *)

Definition is_DescribeStacks (c : Call) : bool :=
  match c with DescribeStacks _ => true | _ => false end.

Definition is_DetectStackDrift (c : Call) : bool :=
  match c with DetectStackDrift _ => true | _ => false end.

(** The target-state queries and the scan requests of a trace. *)
Definition describes (t : list Call) : list Call := List.filter is_DescribeStacks t.
Definition scans (t : list Call) : list Call := List.filter is_DetectStackDrift t.

(** ** A target and the result event of one of its scans *)

(** The parameters of a target whose three fields are all set. *)
Definition params_of (account region name : string) : DriftDetect.Params :=
  {| DriftDetect.account := Some account;
     DriftDetect.region := Some region;
     DriftDetect.stackName := Some name |}.



(** ** The CDK app entry point

    [stackPrefix] and the [stackName] handed to [DriftDetectionPrereqStack];
    [appName] is what [app.node.tryGetContext('appName')] returns. *)

Module App.

Definition stackPrefix (appName : option string) : string :=
  if Js.truthy appName then Js.interpolate appName else "demo".

Definition stackName (appName : option string) : string :=
  stackPrefix appName +:+ "-drift-detection-prereq".

End App.

(** ** The handlers from the raw event

    The two modules above start from an event whose fields are present.
    The handlers themselves receive an [any]; the statements that read it
    are outside every [try], so an event that lacks a property makes the
    handler's promise reject with a [TypeError], and [UserParameters] that
    do not parse make it reject with what [JSON.parse] throws. *)

(** [object[property]] on an object that may be [undefined]. *)
Definition read {A} (object : option A) (property : string) : Reply A :=
  match object with
  | Some value => Resolved value
  | None =>
      Rejected (TypeError ("Cannot read properties of undefined (reading '"
                           +:+ property +:+ "')"))
  end.

(** A step of the handler that can only throw. *)
Definition lift {A} (r : Reply A) : M A :=
  match r with
  | Resolved a => mret a
  | Rejected err => throw err
  end.

Module DriftDetectEntry.

(** The CodePipeline job event down to [UserParameters]; [None] is a
    property that is not there. *)
Record Configuration : Type := {
  UserParameters : option string;
}.

Record ActionConfiguration : Type := {
  configuration : option Configuration;
}.

Record Data : Type := {
  actionConfiguration : option ActionConfiguration;
}.

Record Job : Type := {
  id : string;
  data : option Data;
}.

Record Event : Type := {
  CodePipeline_job : option Job;
}.

(** What [JSON.parse] can return, as far as lines 42 to 47 look at it:
    [null], a value all of whose properties read as [undefined] (a number,
    a string, a boolean), or an object with its three fields. *)
Inductive Parsed : Type :=
| Null
| Primitive
| Object (params : DriftDetect.Params).

(** [params.region] of line 47, the first property read off the parsed
    value. *)
Definition params_of_parsed (value : Parsed) : Reply DriftDetect.Params :=
  match value with
  | Null =>
      Rejected (TypeError "Cannot read properties of null (reading 'region')")
  | Primitive =>
      Resolved {| DriftDetect.account := None;
                  DriftDetect.region := None;
                  DriftDetect.stackName := None |}
  | Object params => Resolved params
  end.

(** Lines 41 to 47: the job identifier and the parsed parameters.
    [JSON.parse] converts its argument to a string first, so an
    [undefined] [UserParameters] is parsed as the text [undefined]. *)
Definition startup (JSON_parse : string -> Reply Parsed) (event : Event)
  : Reply DriftDetect.JobEvent :=
  match read (CodePipeline_job event) "id" with
  | Rejected err => Rejected err
  | Resolved job =>
      match read (data job) "actionConfiguration" with
      | Rejected err => Rejected err
      | Resolved data =>
          match read (actionConfiguration data) "configuration" with
          | Rejected err => Rejected err
          | Resolved action =>
              match read (configuration action) "UserParameters" with
              | Rejected err => Rejected err
              | Resolved config =>
                  match JSON_parse (Js.interpolate (UserParameters config)) with
                  | Rejected err => Rejected err
                  | Resolved value =>
                      match params_of_parsed value with
                      | Rejected err => Rejected err
                      | Resolved params =>
                          Resolved {| DriftDetect.id := id job;
                                      DriftDetect.UserParameters := params |}
                      end
                  end
              end
          end
      end
  end.

(** The exported handler.  Lines 41 to 47 touch nothing outside the
    handler: when they throw, only the console line of 39 has run; when
    they do not, the rest is [DriftDetect.handler] on what they read. *)
Definition handler (JSON_parse : string -> Reply Parsed) (svc : Services)
    (event : Event) : M unit :=
  match startup JSON_parse event with
  | Resolved job => DriftDetect.handler svc job
  | Rejected err => console_dump Info "event";; throw err
  end.

End DriftDetectEntry.

Module CallbackEntry.

Record StatusDetails : Type := {
  stack_drift_status : option string;
}.

Record Detail : Type := {
  stack_id : option string;
  stack_drift_detection_id : string;
  status_details : option StatusDetails;
}.

Record Event : Type := {
  detail_type : option string;
  account : option string;
  region : option string;
  detail : option Detail;
}.

(** [extractStackNameFromArn(stackArn)] on an argument that may be
    [undefined]: [stackArn.split] then throws. *)
Definition extractStackName (stackArn : option string) : Reply (option string) :=
  match read stackArn "split" with
  | Rejected err => Rejected err
  | Resolved arn => Resolved (extractStackNameFromArn arn)
  end.

Definition fetchCallbackDetails (svc : Services) (event : Event)
  : M (option string) :=
  console_info "Fetch callback details";;
  detail ← lift (read (detail event) "stack-id");
  stackName ← lift (extractStackName (stack_id detail));
  let stackAccount := account event in
  let stackRegion := region event in
  let driftDetectId := stack_drift_detection_id detail in
  try_catch
    (resp ← getItem svc
              (Js.interpolate stackAccount +:+ "#" +:+ Js.interpolate stackRegion
               +:+ "#" +:+ Js.interpolate stackName)
              driftDetectId;
     console_dump Debug "resp";;
     match resp with
     | Some Item =>
         match Item !! "pipeline_job_id" with
         | Some jobId => mret (Some jobId)
         | None =>
             throw (TypeError "Cannot read properties of undefined (reading 'S')")
         end
     | None => mret None
     end)
    (λ err,
      console_error (JSON_stringify err);;
      mret None).

(** [event['detail']['status-details']['stack-drift-status']] *)
Definition status_of (event : Event) : Reply (option string) :=
  match read (detail event) "status-details" with
  | Rejected err => Rejected err
  | Resolved detail =>
      match read (status_details detail) "stack-drift-status" with
      | Rejected err => Rejected err
      | Resolved status => Resolved (stack_drift_status status)
      end
  end.

(** [`Stack ${event['detail']['stack-id']} has DRIFTED ...`] *)
Definition drift_message (event : Event) : Reply string :=
  match read (detail event) "stack-id" with
  | Rejected err => Rejected err
  | Resolved detail =>
      Resolved ("Stack " +:+ Js.interpolate (stack_id detail)
                +:+ " has DRIFTED from its template configuration")
  end.

Definition handler (svc : Services) (event : Event) : M unit :=
  console_dump Info "event";;
  (if bool_decide
        (detail_type event = Some "CloudFormation Drift Detection Status Change")
   then
     found ← fetchCallbackDetails svc event;
     if Js.truthy found then
       let jobId := default EmptyString found in
       status ← lift (status_of event);
       if bool_decide (status = Some "DRIFTED") then
         message ← lift (drift_message event);
         console_info message;;
         console_info "Send failure";;
         sendFailure svc jobId {| message := message; type := "JobFailed" |}
       else
         status ← lift (status_of event);
         if bool_decide (status = Some "IN_SYNC") then
           console_info "Send success";;
           sendSuccess svc jobId
         else mret ()
     else
       console_error "Drift detection event details does not match with db record"
   else console_error "Event detail type not supported.");;
  return_.

(** An event all of whose fields are present. *)
Definition complete (event : Callback.ScanEvent) : Event :=
  {| detail_type := Some (Callback.detail_type event);
     account := Some (Callback.account event);
     region := Some (Callback.region event);
     detail :=
       Some {| stack_id := Some (Callback.stack_id (Callback.detail event));
               stack_drift_detection_id :=
                 Callback.stack_drift_detection_id (Callback.detail event);
               status_details :=
                 Some {| stack_drift_status :=
                           Some (Callback.stack_drift_status
                                   (Callback.status_details (Callback.detail event))) |} |} |}.

(** The key the lookup asks for, when the event has a stack identifier. *)
Definition key_of (event : Event) : option (string * string) :=
  detail ← detail event;
  arn ← stack_id detail;
  Some (Js.interpolate (account event) +:+ "#" +:+ Js.interpolate (region event)
        +:+ "#" +:+ Js.interpolate (extractStackNameFromArn arn),
        stack_drift_detection_id detail).

End CallbackEntry.

(** ** Raw events used in the examples below *)

Module EntrySample.

(** A job event with its whole path down to [UserParameters]. *)
Definition job_event (jobId : string) (text : option string)
  : DriftDetectEntry.Event :=
  {| DriftDetectEntry.CodePipeline_job :=
       Some {| DriftDetectEntry.id := jobId;
               DriftDetectEntry.data :=
                 Some {| DriftDetectEntry.actionConfiguration :=
                   Some {| DriftDetectEntry.configuration :=
                     Some {| DriftDetectEntry.UserParameters := text |} |} |} |} |}.

(** A parser that rejects every text, and one that reads every text as
    the parameters of the example stack. *)
Definition SyntaxError : JsThrown :=
  NativeError "SyntaxError" "Unexpected token u in JSON at position 0".

Definition rejects (text : string) : Reply DriftDetectEntry.Parsed :=
  Rejected SyntaxError.

Definition reads_example (text : string) : Reply DriftDetectEntry.Parsed :=
  Resolved (DriftDetectEntry.Object
              (params_of "123456789012" "ap-northeast-2" "example-stack")).

(** A drift-status-change event whose detail has no [stack-id]. *)
Definition without_stack_id (scanId status : string) : CallbackEntry.Event :=
  {| CallbackEntry.detail_type := Some "CloudFormation Drift Detection Status Change";
     CallbackEntry.account := Some "123456789012";
     CallbackEntry.region := Some "ap-northeast-2";
     CallbackEntry.detail :=
       Some {| CallbackEntry.stack_id := None;
               CallbackEntry.stack_drift_detection_id := scanId;
               CallbackEntry.status_details :=
                 Some {| CallbackEntry.stack_drift_status := Some status |} |} |}.

End EntrySample.

(** * Properties *)

(** ** Splitting and searching strings *)

Section Split.
Variable sep : ascii.

Lemma split_nonempty s : Js.split sep s <> [].
Proof.
  destruct s as [|c s]; simpl; [done|].
  destruct (Ascii.eqb c sep); [done|]. by destruct (Js.split sep s).
Qed.

(** A string without the separator is a single piece. *)
Lemma split_no_sep s : Js.occurs sep s = false -> Js.split sep s = [s].
Proof.
  induction s as [|c s IH]; simpl; [done|].
  intros [Hc Hs]%orb_false_elim. rewrite Hc, (IH Hs). done.
Qed.

(** Splitting distributes over a separator. *)
Lemma split_app_sep a b :
  Js.split sep (a +:+ String sep b) = (Js.split sep a ++ Js.split sep b)%list.
Proof.
  induction a as [|c a IH]; simpl.
  - by rewrite Ascii.eqb_refl.
  - rewrite IH. destruct (Ascii.eqb c sep); [done|].
    destruct (Js.split sep a) as [|p ps] eqn:E; [|done].
    exfalso. by eapply split_nonempty.
Qed.

(** The first piece ends at the first separator. *)
Lemma split_first a b :
  Js.occurs sep a = false ->
  Js.split sep (a +:+ String sep b) = a :: Js.split sep b.
Proof. intros Ha. by rewrite split_app_sep, split_no_sep. Qed.

(** The last piece starts after the last separator. *)
Lemma pop_split_app a b :
  Js.pop (Js.split sep (a +:+ String sep b)) = Js.pop (Js.split sep b).
Proof.
  unfold Js.pop. rewrite split_app_sep, last_app.
  destruct (last (Js.split sep b)) eqn:E; [done|].
  apply last_None in E. exfalso. by eapply split_nonempty.
Qed.

Lemma occurs_app a b :
  Js.occurs sep (a +:+ b) = Js.occurs sep a || Js.occurs sep b.
Proof.
  induction a as [|c a IH]; simpl; [done|]. by rewrite IH, orb_assoc.
Qed.
End Split.

Lemma pop_last_default l : l <> [] -> Js.pop l = Some (List.last l EmptyString).
Proof.
  unfold Js.pop. induction l as [|x l IH]; [done|]. intros _.
  destruct l as [|y l]; [done|].
  rewrite last_cons, IH by done. done.
Qed.

Lemma prefix_app n b : String.prefix n (n +:+ b) = true.
Proof.
  induction n as [|c n IH]; simpl; [by destruct b|].
  destruct (ascii_dec c c); [done|congruence].
Qed.

Lemma includes_prefix n h : String.prefix n h = true -> Js.includes n h = true.
Proof.
  intros H.
  assert (Hunfold : Js.includes n h
    = String.prefix n h
      || match h with
         | EmptyString => false
         | String _ rest => Js.includes n rest
         end) by (by destruct h).
  by rewrite Hunfold, H.
Qed.

Lemma includes_here n b : Js.includes n (n +:+ b) = true.
Proof. apply includes_prefix, prefix_app. Qed.

Lemma includes_app_r n a b :
  Js.includes n b = true -> Js.includes n (a +:+ b) = true.
Proof.
  intros Hb. induction a as [|c a IH]; simpl; [done|].
  rewrite IH. apply orb_true_r.
Qed.

(** C9.  On an identifier [<prefix>:stack/<name>/<suffix>] (no colon in
    [name] or [suffix], no slash in [name]), [extractStackNameFromArn]
    returns [name], and that is the second slash-delimited segment of the
    last colon-delimited segment. *)
Theorem extractStackNameFromArn_stack_arn (prefix name suffix : string) :
  Js.occurs ":" name = false ->
  Js.occurs "/" name = false ->
  Js.occurs ":" suffix = false ->
  let arn := prefix +:+ ":stack/" +:+ name +:+ "/" +:+ suffix in
  extractStackNameFromArn arn = Some name /\
  extractStackNameFromArn arn = second_segment_of_last arn.
Proof.
  intros Hn1 Hn2 Hs arn.
  assert (Hpop :
    Js.pop (Js.split ":" arn) = Some ("stack/" +:+ name +:+ "/" +:+ suffix)).
  { subst arn.
    change (prefix +:+ ":stack/" +:+ name +:+ "/" +:+ suffix)
      with (prefix +:+ String ":" ("stack/" +:+ name +:+ "/" +:+ suffix)).
    rewrite pop_split_app, split_no_sep; [done|].
    change ("stack/" +:+ name +:+ "/" +:+ suffix)
      with ("stack/" +:+ (name +:+ ("/" +:+ suffix))).
    rewrite !occurs_app, Hn1, Hs. done. }
  assert (Hseg : Js.split "/" ("stack/" +:+ name +:+ "/" +:+ suffix)
                 = "stack" :: name :: Js.split "/" suffix).
  { change ("stack/" +:+ name +:+ "/" +:+ suffix)
      with ("stack" +:+ String "/" (name +:+ String "/" suffix)).
    rewrite split_first by done. by rewrite split_first. }
  split.
  - unfold extractStackNameFromArn. rewrite Hpop.
    unfold fmap, option_fmap, option_map. rewrite Hseg. done.
  - unfold extractStackNameFromArn, second_segment_of_last.
    rewrite Hpop. rewrite pop_last_default in Hpop by apply split_nonempty.
    injection Hpop as ->. unfold fmap, option_fmap, option_map.
    rewrite Hseg. done.
Qed.

(** The sample input of the source comment. *)
Lemma extractStackNameFromArn_sample :
  Js.occurs ":" "example-stack" = false /\
  Js.occurs "/" "example-stack" = false /\
  Js.occurs ":" "11111111" = false /\
  extractStackNameFromArn
    "arn:aws:cloudformation:ap-northeast-2:123456789012:stack/example-stack/11111111"
  = Some "example-stack".
Proof.
  split; [reflexivity|]. split; [reflexivity|]. split; [reflexivity|].
  apply (extractStackNameFromArn_stack_arn
           "arn:aws:cloudformation:ap-northeast-2:123456789012"
           "example-stack" "11111111"); reflexivity.
Defined.

(** ** Running a handler *)

Ltac unfold_run :=
  cbv [invoke DriftDetect.handler Callback.handler Callback.fetchCallbackDetails
       sendSuccess sendFailure putJobSuccessResult putJobFailureResult
       pipeline_reply describeStacks detectStackDrift putItem getItem await
       console_info console_error console_debug console_dump call try_catch
       throw return_ mbind mret M_bind M_ret].

(** Case analysis on what the pipeline answers, in a hypothesis. *)
Ltac faults H :=
  repeat match type of H with
         | context [pipeline_fault ?svc ?n] =>
             destruct (pipeline_fault svc n); cbn in H
         | context [is_ValidationError ?e] =>
             destruct (is_ValidationError e); cbn in H
         end.

(** A call of another kind is not in the trace. *)
Ltac absent H :=
  repeat (apply elem_of_cons in H as [H|H]; [discriminate H|]);
  by apply elem_of_nil in H.

Lemma new_Error_not_validation m : is_ValidationError (new_Error m) = false.
Proof. reflexivity. Qed.

Lemma new_Error_prints_empty m : JSON_stringify (new_Error m) = "{}".
Proof. reflexivity. Qed.

(** ** The initiator does not look at the table *)

Section Oblivious.
Context {A B : Type}.

Lemma oblivious_ret (a : A) : store_oblivious (mret a).
Proof. by intros w1 w2 H. Qed.

Lemma oblivious_throw err : store_oblivious (@throw A err).
Proof. by intros w1 w2 H. Qed.

Lemma oblivious_return : store_oblivious (@return_ A).
Proof. by intros w1 w2 H. Qed.

Lemma oblivious_bind (m : M A) (k : A -> M B) :
  store_oblivious m -> (forall a, store_oblivious (k a)) ->
  store_oblivious (m ≫= k).
Proof.
  intros Hm Hk w1 w2 H. destruct (Hm w1 w2 H) as (Hc & Ht & Hr).
  unfold mbind, M_bind.
  destruct (m w1) as [c1 v1], (m w2) as [c2 v2]; simpl in *. subst c2.
  destruct c1 as [a| |err]; simpl; [|done..].
  destruct (Hk a v1 v2 Ht) as (Hc' & Ht' & Hr'). by rewrite Hr'.
Qed.

Lemma oblivious_try_catch (body : M A) (handler : JsThrown -> M A) :
  store_oblivious body -> (forall err, store_oblivious (handler err)) ->
  store_oblivious (try_catch body handler).
Proof.
  intros Hm Hk w1 w2 H. destruct (Hm w1 w2 H) as (Hc & Ht & Hr).
  unfold try_catch.
  destruct (body w1) as [c1 v1], (body w2) as [c2 v2]; simpl in *. subst c2.
  destruct c1 as [a| |err]; simpl; [done..|].
  destruct (Hk err v1 v2 Ht) as (Hc' & Ht' & Hr'). by rewrite Hr'.
Qed.
End Oblivious.

Lemma reads_snoc t c : is_GetItem c = false -> reads (t ++ [c]) = reads t.
Proof.
  intros Hc. unfold reads. rewrite List.filter_app. simpl. rewrite Hc.
  apply app_nil_r.
Qed.

Lemma oblivious_call c : is_GetItem c = false -> store_oblivious (call c).
Proof.
  intros Hc w1 w2 H. unfold call; simpl. rewrite H.
  split_and!; [done..|]. rewrite <- H. by apply reads_snoc.
Qed.

Lemma oblivious_await {A} c (reply : Reply A) :
  is_GetItem c = false -> store_oblivious (await c reply).
Proof.
  intros Hc. apply oblivious_bind; [by apply oblivious_call|]. intros _.
  destruct reply; [apply oblivious_ret | apply oblivious_throw].
Qed.

Lemma oblivious_putItem svc pk sk Item : store_oblivious (putItem svc pk sk Item).
Proof.
  apply oblivious_bind; [by apply oblivious_call|]. intros _.
  destruct (putItem_fault svc); [apply oblivious_throw|]. by intros w1 w2 H.
Qed.

Lemma oblivious_sendSuccess svc jobId : store_oblivious (sendSuccess svc jobId).
Proof.
  apply oblivious_bind; [|intros _; by apply oblivious_call].
  intros w1 w2 H. unfold putJobSuccessResult, pipeline_reply. rewrite <- H.
  by apply oblivious_await.
Qed.

Lemma oblivious_sendFailure svc jobId details :
  store_oblivious (sendFailure svc jobId details).
Proof.
  apply oblivious_bind; [|intros _; by apply oblivious_call].
  intros w1 w2 H. unfold putJobFailureResult, pipeline_reply. rewrite <- H.
  by apply oblivious_await.
Qed.

Ltac oblivious :=
  repeat first
    [ apply oblivious_sendSuccess | apply oblivious_sendFailure
    | apply oblivious_putItem | apply oblivious_ret | apply oblivious_throw
    | apply oblivious_return
    | apply oblivious_call; reflexivity
    | apply oblivious_await; reflexivity
    | apply oblivious_try_catch | apply oblivious_bind
    | progress intros
    | case_match ].

Lemma oblivious_handler svc event :
  store_oblivious (DriftDetect.handler svc event).
Proof.
  unfold DriftDetect.handler, describeStacks, detectStackDrift,
    console_info, console_error, console_debug, console_dump.
  oblivious.
Qed.

(** C8.  The initiator never reads the table: started on any two tables it
    ends the same way and makes the same calls, in particular the same
    pipeline callbacks; run again on the table it left behind, it makes the
    same callbacks once more. *)
Theorem initiate_ignores_store (svc : Services) (event : DriftDetect.JobEvent)
    (store1 store2 : gmap (string * string) (gmap string string)) :
  let run1 := invoke (DriftDetect.handler svc event) store1 in
  let run2 := invoke (DriftDetect.handler svc event) store2 in
  let again := invoke (DriftDetect.handler svc event) (table run1.2) in
  reads (trace run1.2) = [] /\
  run1.1 = run2.1 /\
  trace run1.2 = trace run2.2 /\
  callbacks (trace run1.2) = callbacks (trace run2.2) /\
  again.1 = run1.1 /\
  callbacks (trace again.2) = callbacks (trace run1.2).
Proof.
  assert (Hany : forall s1 s2,
    (invoke (DriftDetect.handler svc event) s1).1
    = (invoke (DriftDetect.handler svc event) s2).1 /\
    trace (invoke (DriftDetect.handler svc event) s1).2
    = trace (invoke (DriftDetect.handler svc event) s2).2 /\
    reads (trace (invoke (DriftDetect.handler svc event) s1).2) = []).
  { intros s1 s2. unfold invoke.
    destruct (oblivious_handler svc event
                {| table := s1; trace := [] |} {| table := s2; trace := [] |})
      as (Hc & Ht & Hr); [done|].
    destruct (DriftDetect.handler svc event {| table := s1; trace := [] |})
      as [c1 w1].
    destruct (DriftDetect.handler svc event {| table := s2; trace := [] |})
      as [c2 w2].
    simpl in *. subst c2. by destruct c1. }
  intros run1 run2 again.
  destruct (Hany store1 store2) as (Hc & Ht & Hr).
  destruct (Hany (table run1.2) store1) as (Hc' & Ht' & _).
  subst run1 run2 again. split_and!; try done.
  - by rewrite Ht.
  - by rewrite Ht'.
Qed.

(** ** The scan initiator *)

Section Initiate.
Import DriftDetect.

(** A scan is requested only for a stack that [describeStacks] returned
    under the requested name and in an allowed status. *)
Lemma scan_started_inv (svc : Services) (event : JobEvent)
    (store : gmap (string * string) (gmap string string)) :
  let params := UserParameters event in
  DetectStackDrift (stackName params) ∈ trace (invoke (handler svc event) store).2 ->
  exists out first,
    describeStacks_reply svc (stackName params) = Resolved out /\
    stack_found out params = Some first /\
    status_allowed first = true.
Proof.
  intros params. subst params. unfold_run.
  destruct (describeStacks_reply svc _) as [out|err] eqn:Hd; cbn.
  - destruct (stack_found out _) as [first|] eqn:Hf; cbn.
    + destruct (status_allowed first) eqn:Hs; cbn; [eauto|].
      intros H. exfalso. faults H; absent H.
    + rewrite new_Error_not_validation. cbn.
      intros H. exfalso. faults H; absent H.
  - intros H. exfalso. faults H; absent H.
Qed.

Lemma item_of_attributes params scanId jobId :
  item_of params scanId jobId !! "pk" = Some (pk_of params) /\
  item_of params scanId jobId !! "sk" = Some scanId /\
  item_of params scanId jobId !! "pipeline_job_id" = Some jobId.
Proof. unfold item_of. by simplify_map_eq. Qed.

(** The run of an invocation whose scan starts and whose record is stored. *)
Lemma scan_recorded (svc : Services) (event : JobEvent)
    (store : gmap (string * string) (gmap string string)) (scanId : string) :
  let params := UserParameters event in
  let run := invoke (handler svc event) store in
  DetectStackDrift (stackName params) ∈ trace run.2 ->
  detectStackDrift_reply svc (stackName params)
  = Resolved {| StackDriftDetectionId := Some scanId |} ->
  scanId <> EmptyString ->
  putItem_fault svc = None ->
  run.1 = Fulfilled /\
  writes (trace run.2) = [PutItem (item_of params scanId (id event))] /\
  callbacks (trace run.2) = [] /\
  table run.2 = <[(pk_of params, scanId) := item_of params scanId (id event)]> store.
Proof.
  intros params run Hscan Hdet Hne Hput.
  destruct (scan_started_inv _ _ _ Hscan) as (out & first & Hd & Hf & Hs).
  subst run params. clear Hscan. unfold_run.
  rewrite Hd. cbn. rewrite Hf. cbn. rewrite Hs. cbn. rewrite Hdet. cbn.
  rewrite (proj2 (String.eqb_neq _ _) Hne). cbn. rewrite Hput. cbn. done.
Qed.

(** C2.  When the scan-start call is made and answers with a non-empty
    scan identifier, and the table accepts the write, the invocation writes
    exactly one item, under the partition key
    [{account}#{region}#{stackName}] and the scan identifier as sort key,
    holding the job identifier; it makes no pipeline callback and ends
    normally. *)
Theorem initiate_records_started_scan (svc : Services) (event : JobEvent)
    (store : gmap (string * string) (gmap string string)) (scanId : string) :
  let params := UserParameters event in
  let run := invoke (handler svc event) store in
  DetectStackDrift (stackName params) ∈ trace run.2 ->
  detectStackDrift_reply svc (stackName params)
  = Resolved {| StackDriftDetectionId := Some scanId |} ->
  scanId <> EmptyString ->
  putItem_fault svc = None ->
  exists Item,
    writes (trace run.2) = [PutItem Item] /\
    table run.2 = <[(pk_of params, scanId) := Item]> store /\
    Item !! "pk" = Some (Js.interpolate (account params) +:+ "#"
                         +:+ Js.interpolate (region params) +:+ "#"
                         +:+ Js.interpolate (stackName params)) /\
    Item !! "sk" = Some scanId /\
    Item !! "pipeline_job_id" = Some (id event) /\
    callbacks (trace run.2) = [] /\
    run.1 = Fulfilled.
Proof.
  intros params run Hscan Hdet Hne Hput.
  destruct (scan_recorded svc event store scanId Hscan Hdet Hne Hput)
    as (Hdone & Hw & Hc & Ht).
  destruct (item_of_attributes params scanId (id event)) as (Hpk & Hsk & Hjob).
  exists (item_of params scanId (id event)). by split_and!.
Qed.

Lemma initiate_records_started_scan_sample :
  let svc := Sample.example_stack "CREATE_COMPLETE" (Some "scan-1") Sample.reliable in
  let run := invoke (handler svc (Sample.job "job-42")) ∅ in
  DetectStackDrift (Some "example-stack") ∈ trace run.2 /\
  detectStackDrift_reply svc (Some "example-stack")
  = Resolved {| StackDriftDetectionId := Some "scan-1" |} /\
  "scan-1" <> EmptyString /\
  putItem_fault svc = None /\
  exists Item,
    writes (trace run.2) = [PutItem Item] /\
    table run.2
    = <[("123456789012#ap-northeast-2#example-stack", "scan-1") := Item]> ∅ /\
    Item !! "pk" = Some "123456789012#ap-northeast-2#example-stack" /\
    Item !! "sk" = Some "scan-1" /\
    Item !! "pipeline_job_id" = Some "job-42" /\
    callbacks (trace run.2) = [] /\
    run.1 = Fulfilled.
Proof.
  intros svc run.
  assert (Hscan : DetectStackDrift (Some "example-stack") ∈ trace run.2).
  { vm_compute. do 6 apply list_elem_of_further. apply list_elem_of_here. }
  split; [exact Hscan|]. split; [reflexivity|]. split; [discriminate|].
  split; [reflexivity|].
  apply (initiate_records_started_scan svc (Sample.job "job-42") ∅ "scan-1");
    [exact Hscan|reflexivity|discriminate|reflexivity].
Defined.

(** The run of an invocation whose scan starts without an identifier. *)
Lemma scan_without_id (svc : Services) (event : JobEvent)
    (store : gmap (string * string) (gmap string string)) (scanId : option string) :
  let params := UserParameters event in
  let run := invoke (handler svc event) store in
  DetectStackDrift (stackName params) ∈ trace run.2 ->
  detectStackDrift_reply svc (stackName params)
  = Resolved {| StackDriftDetectionId := scanId |} ->
  Js.truthy scanId = false ->
  callbacks (trace run.2)
  = [PutJobFailureResult (id event)
       (JobFailed (new_Error "Unknown error: Drift detection id missing"))] /\
  writes (trace run.2) = [] /\
  table run.2 = store.
Proof.
  intros params run Hscan Hdet Hid.
  destruct (scan_started_inv _ _ _ Hscan) as (out & first & Hd & Hf & Hs).
  subst run params. clear Hscan. unfold_run.
  rewrite Hd. cbn. rewrite Hf. cbn. rewrite Hs. cbn. rewrite Hdet. cbn.
  cbn in Hid. rewrite Hid. cbn. by destruct (pipeline_fault svc 0).
Qed.

(** C7.  The stack is stable and the scan-start call answers without a
    scan identifier: the handler reports failure once and writes nothing,
    but the failure message it sends is the two characters of an empty
    object; the text [Unknown error: Drift detection id missing] only
    reaches the console. *)
Theorem initiate_missing_scan_id_sends_empty_object :
  let svc := Sample.example_stack "CREATE_COMPLETE" None Sample.reliable in
  let run := invoke (handler svc (Sample.job "job-42")) ∅ in
  callbacks (trace run.2)
  = [PutJobFailureResult "job-42" {| message := "{}"; type := "JobFailed" |}] /\
  writes (trace run.2) = [] /\
  Console Error (Text "Unknown error: Drift detection id missing") ∈ trace run.2 /\
  Js.includes "Drift detection id missing" "{}" = false.
Proof.
  intros svc run. split_and!; try (vm_compute; reflexivity).
  vm_compute. do 8 apply list_elem_of_further. apply list_elem_of_here.
Qed.

(** *** Benign conditions *)

(** The target does not exist. *)
Lemma target_absent_reports_success (svc : Services) (event : JobEvent)
    (store : gmap (string * string) (gmap string string)) (err : JsThrown) :
  let params := UserParameters event in
  let run := invoke (handler svc event) store in
  describeStacks_reply svc (stackName params) = Rejected err ->
  is_ValidationError err = true ->
  callbacks (trace run.2) = [PutJobSuccessResult (id event)] /\
  writes (trace run.2) = [] /\ table run.2 = store.
Proof.
  intros params run Hd Hv. subst run params. unfold_run.
  rewrite Hd. cbn. rewrite Hv. cbn. by destruct (pipeline_fault svc 0).
Qed.

(** The scan is not permitted. *)
Lemma scan_not_permitted_reports_success (svc : Services) (event : JobEvent)
    (store : gmap (string * string) (gmap string string)) (err : JsThrown) :
  let params := UserParameters event in
  let run := invoke (handler svc event) store in
  DetectStackDrift (stackName params) ∈ trace run.2 ->
  detectStackDrift_reply svc (stackName params) = Rejected err ->
  is_ValidationError err = true ->
  callbacks (trace run.2) = [PutJobSuccessResult (id event)] /\
  writes (trace run.2) = [] /\ table run.2 = store.
Proof.
  intros params run Hscan Hdet Hv.
  destruct (scan_started_inv _ _ _ Hscan) as (out & first & Hd & Hf & Hs).
  subst run params. clear Hscan. unfold_run.
  rewrite Hd. cbn. rewrite Hf. cbn. rewrite Hs. cbn. rewrite Hdet. cbn.
  rewrite Hv. cbn. by destruct (pipeline_fault svc 0).
Qed.

(** The target is in a status that does not allow a scan.  Here the
    success callback sits inside the [try] block, so what follows depends
    on whether that callback itself is rejected. *)
Lemma unstable_target_reports_success (svc : Services) (event : JobEvent)
    (store : gmap (string * string) (gmap string string))
    (out : DescribeStacksCommandOutput) (first : Stack) :
  let params := UserParameters event in
  let run := invoke (handler svc event) store in
  describeStacks_reply svc (stackName params) = Resolved out ->
  stack_found out params = Some first ->
  status_allowed first = false ->
  head (callbacks (trace run.2)) = Some (PutJobSuccessResult (id event)) /\
  (pipeline_fault svc 0 = None ->
   callbacks (trace run.2) = [PutJobSuccessResult (id event)]) /\
  writes (trace run.2) = [] /\ table run.2 = store.
Proof.
  intros params run Hd Hf Hs. subst run params. unfold_run.
  rewrite Hd. cbn. rewrite Hf. cbn. rewrite Hs. cbn.
  destruct (pipeline_fault svc 0) as [e|]; cbn; [|done].
  destruct (is_ValidationError e); cbn;
    by destruct (pipeline_fault svc 1).
Qed.

(** C3.  The stack is in [UPDATE_IN_PROGRESS] and the success callback is
    rejected: the rejection is caught by the [catch] that guards the
    scan-start call, and the handler makes a second pipeline callback for
    the same job, a failure report after a timeout and a second success
    report after a validation-style rejection.  No record is written. *)
Theorem initiate_unstable_target_rejected_callback :
  let run err :=
    invoke (handler (Sample.example_stack "UPDATE_IN_PROGRESS" (Some "scan-1")
                       (Sample.first_rejected err)) (Sample.job "job-7")) ∅ in
  let timeout := Sample.named "TimeoutError" in
  let invalid := Sample.named "ValidationError" in
  callbacks (trace (run timeout).2)
  = [PutJobSuccessResult "job-7";
     PutJobFailureResult "job-7"
       {| message := JSON_stringify timeout; type := "JobFailed" |}] /\
  callbacks (trace (run invalid).2)
  = [PutJobSuccessResult "job-7"; PutJobSuccessResult "job-7"] /\
  writes (trace (run timeout).2) = [] /\
  writes (trace (run invalid).2) = [].
Proof. intros run timeout invalid. split_and!; vm_compute; reflexivity. Qed.

(** When [describeStacks] answers without a stack list, with an empty
    one, or with a first stack of another name, the handler reports failure
    once, never success, and writes nothing; the message is the
    serialisation of the error it raised. *)
Theorem initiate_unexpected_describe_output (svc : Services) (event : JobEvent)
    (store : gmap (string * string) (gmap string string))
    (out : DescribeStacksCommandOutput) :
  let params := UserParameters event in
  let run := invoke (handler svc event) store in
  describeStacks_reply svc (stackName params) = Resolved out ->
  Stacks out = None \/ Stacks out = Some [] \/
  (exists first rest,
     Stacks out = Some (first :: rest) /\ StackName first <> stackName params) ->
  callbacks (trace run.2)
  = [PutJobFailureResult (id event)
       {| message :=
            JSON_stringify (new_Error "Unknown error: Check DescribeStacks output");
          type := "JobFailed" |}] /\
  writes (trace run.2) = [] /\
  table run.2 = store.
Proof.
  intros params run Hd Hout.
  assert (Hf : stack_found out params = None).
  { unfold stack_found.
    destruct Hout as [-> | [-> | (first & rest & -> & Hname)]]; [done..|].
    by rewrite bool_decide_eq_false_2. }
  subst run params. unfold_run.
  rewrite Hd. cbn. rewrite Hf. cbn. rewrite new_Error_not_validation. cbn.
  by destruct (pipeline_fault svc 0).
Qed.

Lemma initiate_unexpected_describe_output_sample :
  let svc :=
    Sample.services (Resolved {| Stacks := Some [] |})
      (Resolved {| StackDriftDetectionId := Some "scan-1" |}) Sample.reliable in
  let run := invoke (handler svc (Sample.job "job-9")) ∅ in
  describeStacks_reply svc (Some "example-stack")
  = Resolved {| Stacks := Some [] |} /\
  callbacks (trace run.2)
  = [PutJobFailureResult "job-9" {| message := "{}"; type := "JobFailed" |}] /\
  writes (trace run.2) = [] /\
  table run.2 = ∅.
Proof.
  intros svc run. split; [reflexivity|].
  apply (initiate_unexpected_describe_output svc (Sample.job "job-9") ∅
           {| Stacks := Some [] |}); [reflexivity|].
  right; left. reflexivity.
Defined.

(** C10.  [describeStacks] answers with an empty stack list, or with a
    first stack of another name: the handler reports failure once, never
    success, and writes nothing, but the failure message it sends is the
    two characters of an empty object; the text
    [Unknown error: Check DescribeStacks output] only reaches the
    console. *)
Theorem initiate_describe_mismatch_sends_empty_object :
  let run described :=
    invoke (handler (Sample.services (Resolved described)
                       (Resolved {| StackDriftDetectionId := Some "scan-1" |})
                       Sample.reliable) (Sample.job "job-9")) ∅ in
  let empty := {| Stacks := Some [] |} in
  let other := Sample.stable_stack "other-stack" "CREATE_COMPLETE" in
  callbacks (trace (run empty).2)
  = [PutJobFailureResult "job-9" {| message := "{}"; type := "JobFailed" |}] /\
  callbacks (trace (run other).2)
  = [PutJobFailureResult "job-9" {| message := "{}"; type := "JobFailed" |}] /\
  writes (trace (run empty).2) = [] /\
  writes (trace (run other).2) = [] /\
  Console Error (Text "Unknown error: Check DescribeStacks output")
    ∈ trace (run empty).2 /\
  Js.includes "Check DescribeStacks output" "{}" = false.
Proof.
  intros run empty other. split_and!; try (vm_compute; reflexivity).
  vm_compute. do 4 apply list_elem_of_further. apply list_elem_of_here.
Qed.

(** C5, as amended.  Two successful invocations for the same target leave
    one record per scan identifier: the second write replaces the first
    record exactly when both scans came back with the same identifier, and
    otherwise both records stay, each under its own sort key; the record
    under the later identifier holds the later job.  No other key is
    touched. *)
Theorem initiate_twice_keeps_one_record_per_scan (svc1 svc2 : Services)
    (event1 event2 : JobEvent)
    (store : gmap (string * string) (gmap string string)) (scan1 scan2 : string) :
  let params := UserParameters event1 in
  let run1 := invoke (handler svc1 event1) store in
  let run2 := invoke (handler svc2 event2) (table run1.2) in
  let key1 := (pk_of params, scan1) in
  let key2 := (pk_of params, scan2) in
  UserParameters event2 = params ->
  DetectStackDrift (stackName params) ∈ trace run1.2 ->
  detectStackDrift_reply svc1 (stackName params)
  = Resolved {| StackDriftDetectionId := Some scan1 |} ->
  scan1 <> EmptyString ->
  putItem_fault svc1 = None ->
  DetectStackDrift (stackName params) ∈ trace run2.2 ->
  detectStackDrift_reply svc2 (stackName params)
  = Resolved {| StackDriftDetectionId := Some scan2 |} ->
  scan2 <> EmptyString ->
  putItem_fault svc2 = None ->
  table run2.2 !! key2 = Some (item_of params scan2 (id event2)) /\
  (scan1 = scan2 ->
   table run2.2 = <[key2 := item_of params scan2 (id event2)]> store) /\
  (scan1 <> scan2 ->
   table run2.2 !! key1 = Some (item_of params scan1 (id event1))) /\
  (forall key, key <> key1 -> key <> key2 -> table run2.2 !! key = store !! key).
Proof.
  intros params run1 run2 key1 key2 Hsame Hs1 Hd1 Hn1 Hp1 Hs2 Hd2 Hn2 Hp2.
  destruct (scan_recorded svc1 event1 store scan1 Hs1 Hd1 Hn1 Hp1)
    as (_ & _ & _ & Ht1).
  subst run2. rewrite <- Hsame in Hs2, Hd2.
  destruct (scan_recorded svc2 event2 (table run1.2) scan2 Hs2 Hd2 Hn2 Hp2)
    as (_ & _ & _ & Ht2).
  rewrite Hsame in Ht2. fold params in Ht1, Ht2. fold key1 in Ht1. fold key2 in Ht2.
  rewrite Ht2. subst run1. rewrite Ht1. split_and!.
  - by rewrite lookup_insert_eq.
  - intros Heq. subst key1 key2. rewrite Heq. by rewrite insert_insert_eq.
  - intros Hneq. rewrite lookup_insert_ne, lookup_insert_eq; [done|].
    subst key1 key2. congruence.
  - intros key Hk1 Hk2. by rewrite !lookup_insert_ne.
Qed.

Lemma initiate_twice_keeps_one_record_per_scan_sample :
  let svc1 := Sample.example_stack "CREATE_COMPLETE" (Some "scan-1") Sample.reliable in
  let svc2 := Sample.example_stack "UPDATE_COMPLETE" (Some "scan-2") Sample.reliable in
  let run1 := invoke (handler svc1 (Sample.job "job-1")) ∅ in
  let run2 := invoke (handler svc2 (Sample.job "job-2")) (table run1.2) in
  let key1 := ("123456789012#ap-northeast-2#example-stack", "scan-1") in
  let key2 := ("123456789012#ap-northeast-2#example-stack", "scan-2") in
  DetectStackDrift (Some "example-stack") ∈ trace run1.2 /\
  DetectStackDrift (Some "example-stack") ∈ trace run2.2 /\
  table run2.2 !! key2 = Some (Sample.record "scan-2" "job-2") /\
  ("scan-1" <> "scan-2" ->
   table run2.2 !! key1 = Some (Sample.record "scan-1" "job-1")).
Proof.
  intros svc1 svc2 run1 run2 key1 key2.
  assert (Hscan1 : DetectStackDrift (Some "example-stack") ∈ trace run1.2).
  { vm_compute. do 6 apply list_elem_of_further. apply list_elem_of_here. }
  assert (Hscan2 : DetectStackDrift (Some "example-stack") ∈ trace run2.2).
  { vm_compute. do 6 apply list_elem_of_further. apply list_elem_of_here. }
  split; [exact Hscan1|]. split; [exact Hscan2|].
  destruct (initiate_twice_keeps_one_record_per_scan
              svc1 svc2 (Sample.job "job-1") (Sample.job "job-2") ∅
              "scan-1" "scan-2")
    as (Hlater & _ & Hfirst & _);
    [reflexivity|exact Hscan1|reflexivity|discriminate|reflexivity
    |exact Hscan2|reflexivity|discriminate|reflexivity|].
  split; [exact Hlater|exact Hfirst].
Defined.

(** C5 as stated fails: after two successful invocations for the same
    target whose scans got different identifiers, the table holds both
    records under the one partition key. *)
Lemma initiate_twice_keeps_both_records :
  let svc1 := Sample.example_stack "CREATE_COMPLETE" (Some "scan-1") Sample.reliable in
  let svc2 := Sample.example_stack "CREATE_COMPLETE" (Some "scan-2") Sample.reliable in
  let run1 := invoke (handler svc1 (Sample.job "job-1")) ∅ in
  let run2 := invoke (handler svc2 (Sample.job "job-2")) (table run1.2) in
  let pk := "123456789012#ap-northeast-2#example-stack" in
  writes (trace run1.2) = [PutItem (Sample.record "scan-1" "job-1")] /\
  writes (trace run2.2) = [PutItem (Sample.record "scan-2" "job-2")] /\
  table run2.2 !! (pk, "scan-1") = Some (Sample.record "scan-1" "job-1") /\
  table run2.2 !! (pk, "scan-2") = Some (Sample.record "scan-2" "job-2") /\
  size (table run2.2) = 2.
Proof.
  intros svc1 svc2 run1 run2 pk. split_and!; vm_compute; reflexivity.
Qed.

End Initiate.

(** ** The completion handler *)

Section Completion.
Import Callback.

Lemma drift_message_names_target event :
  Js.includes (stack_id (detail event)) (drift_message event) = true /\
  Js.includes "DRIFTED" (drift_message event) = true.
Proof.
  unfold drift_message. split.
  - apply includes_app_r, includes_here.
  - do 2 apply includes_app_r. reflexivity.
Qed.

(** C1, as amended.  For an event of the expected category whose lookup
    finds a record with a non-empty [pipeline_job_id]: on [DRIFTED] the
    handler calls [putJobFailureResult] once, for that job, with a message
    that quotes the stack identifier and the word DRIFTED; on [IN_SYNC] it
    calls [putJobSuccessResult] once for that job; on any other status it
    makes no pipeline callback. *)
Theorem completion_dispatches_on_status (svc : Services) (event : ScanEvent)
    (store : gmap (string * string) (gmap string string))
    (Item : gmap string string) (jobId : string) :
  let status := stack_drift_status (status_details (detail event)) in
  let made := callbacks (trace (invoke (handler svc event) store).2) in
  detail_type event = "CloudFormation Drift Detection Status Change" ->
  getItem_fault svc = None ->
  store !! (pk_of event, stack_drift_detection_id (detail event)) = Some Item ->
  Item !! "pipeline_job_id" = Some jobId ->
  jobId <> EmptyString ->
  (status = "DRIFTED" ->
   made = [PutJobFailureResult jobId
             {| message := drift_message event; type := "JobFailed" |}] /\
   Js.includes (stack_id (detail event)) (drift_message event) = true /\
   Js.includes "DRIFTED" (drift_message event) = true) /\
  (status = "IN_SYNC" -> made = [PutJobSuccessResult jobId]) /\
  (status <> "DRIFTED" -> status <> "IN_SYNC" -> made = []).
Proof.
  intros status made Hcat Hget Hrec Hjob Hne.
  assert (Hrun : made =
    if String.eqb status "DRIFTED" then
      [PutJobFailureResult jobId
         {| message := drift_message event; type := "JobFailed" |}]
    else if String.eqb status "IN_SYNC" then [PutJobSuccessResult jobId]
    else []).
  { subst made status. unfold_run. rewrite Hcat. cbn. rewrite Hget. cbn.
    rewrite Hrec. cbn. rewrite Hjob. cbn.
    rewrite (proj2 (String.eqb_neq _ _) Hne). cbn.
    destruct (String.eqb _ "DRIFTED"); cbn.
    { by destruct (pipeline_fault svc 0). }
    destruct (String.eqb _ "IN_SYNC"); cbn; [|done].
    by destruct (pipeline_fault svc 0). }
  rewrite Hrun. split_and!.
  - intros ->. split; [done|]. apply drift_message_names_target.
  - by intros ->.
  - intros H1%String.eqb_neq H2%String.eqb_neq. by rewrite H1, H2.
Qed.

(** The example of the specification: job-42 is told that example-stack
    has drifted. *)
Lemma completion_dispatches_on_status_sample :
  let svc := Sample.example_stack "CREATE_COMPLETE" None Sample.reliable in
  let event := Sample.scan_result Sample.arn "scan-1" "DRIFTED" in
  let store := Sample.one_record "scan-1" "job-42" in
  let made := callbacks (trace (invoke (handler svc event) store).2) in
  store !! ("123456789012#ap-northeast-2#example-stack", "scan-1")
  = Some (Sample.record "scan-1" "job-42") /\
  Sample.record "scan-1" "job-42" !! "pipeline_job_id" = Some "job-42" /\
  "job-42" <> EmptyString /\
  made = [PutJobFailureResult "job-42"
            {| message := drift_message event; type := "JobFailed" |}] /\
  Js.includes "example-stack" (drift_message event) = true /\
  Js.includes "DRIFTED" (drift_message event) = true.
Proof.
  intros svc event store made.
  split; [vm_compute; reflexivity|]. split; [vm_compute; reflexivity|].
  split; [discriminate|].
  destruct (completion_dispatches_on_status svc event store
              (Sample.record "scan-1" "job-42") "job-42")
    as [Hdrifted _];
    [reflexivity|reflexivity|vm_compute; reflexivity|vm_compute; reflexivity
    |discriminate|].
  destruct (Hdrifted eq_refl) as (Hmade & _ & Hword).
  split; [exact Hmade|]. split; [vm_compute; reflexivity|exact Hword].
Defined.

(** C1 as stated fails: the lookup finds a record, the status is
    [DRIFTED], and no callback is made, because the record's job identifier
    is the empty string and the handler tests it for truthiness. *)
Lemma completion_skips_record_with_empty_job :
  let svc := Sample.example_stack "CREATE_COMPLETE" None Sample.reliable in
  let event := Sample.scan_result Sample.arn "scan-1" "DRIFTED" in
  let store := Sample.one_record "scan-1" EmptyString in
  let run := invoke (handler svc event) store in
  detail_type event = "CloudFormation Drift Detection Status Change" /\
  store !! (pk_of event, stack_drift_detection_id (detail event))
  = Some (Sample.record "scan-1" EmptyString) /\
  Sample.record "scan-1" EmptyString !! "pipeline_job_id" = Some EmptyString /\
  stack_drift_status (status_details (detail event)) = "DRIFTED" /\
  reads (trace run.2)
  = [GetItem "123456789012#ap-northeast-2#example-stack" "scan-1"] /\
  callbacks (trace run.2) = [] /\
  callbacks (trace run.2)
  <> [PutJobFailureResult EmptyString
        {| message := drift_message event; type := "JobFailed" |}].
Proof.
  intros svc event store run. split_and!; try (vm_compute; reflexivity).
  vm_compute. discriminate.
Qed.

(** C4, as amended.  The lookup is keyed by the partition key built from
    account, region and parsed stack name together with the event's scan
    identifier as sort key: two events that agree on these four make the
    same [getItem] request and get the same answer, and if they also agree
    on category and status they report the same verdict to the same
    job. *)
Theorem lookup_keyed_by_target_and_scan (svc : Services) (event1 event2 : ScanEvent)
    (store : gmap (string * string) (gmap string string)) :
  let run1 := invoke (handler svc event1) store in
  let run2 := invoke (handler svc event2) store in
  account event1 = account event2 ->
  region event1 = region event2 ->
  extractStackNameFromArn (stack_id (detail event1))
  = extractStackNameFromArn (stack_id (detail event2)) ->
  stack_drift_detection_id (detail event1)
  = stack_drift_detection_id (detail event2) ->
  (forall w, fetchCallbackDetails svc event1 w = fetchCallbackDetails svc event2 w) /\
  (detail_type event1 = detail_type event2 ->
   stack_drift_status (status_details (detail event1))
   = stack_drift_status (status_details (detail event2)) ->
   reads (trace run1.2) = reads (trace run2.2) /\
   verdicts (callbacks (trace run1.2)) = verdicts (callbacks (trace run2.2))).
Proof.
  intros run1 run2 Ha Hr Hn Hs.
  assert (Hpk : pk_of event1 = pk_of event2).
  { unfold pk_of. by rewrite Ha, Hr, Hn. }
  split.
  { intros w. unfold fetchCallbackDetails. by rewrite Hpk, Hs. }
  intros Hcat Hstatus. subst run1 run2.
  unfold_run. rewrite <- Hcat, <- Hstatus, <- Hs, <- Hpk.
  destruct (String.eqb (detail_type event1) _); cbn; [|done].
  destruct (getItem_fault svc); cbn; [done|].
  destruct (store !! _) as [Item|]; cbn; [|done].
  destruct (Item !! "pipeline_job_id") as [jobId|]; cbn; [|done].
  destruct (String.eqb jobId EmptyString); cbn; [done|].
  destruct (String.eqb _ "DRIFTED"); cbn.
  { by destruct (pipeline_fault svc 0). }
  destruct (String.eqb _ "IN_SYNC"); cbn; [|done].
  by destruct (pipeline_fault svc 0).
Qed.

(** Two events for the same stack and scan whose identifiers differ in the
    trailing segment. *)
Lemma lookup_keyed_by_target_and_scan_sample :
  let svc := Sample.example_stack "CREATE_COMPLETE" None Sample.reliable in
  let event1 := Sample.scan_result Sample.arn "scan-1" "IN_SYNC" in
  let event2 :=
    Sample.scan_result
      "arn:aws:cloudformation:ap-northeast-2:123456789012:stack/example-stack/22222222"
      "scan-1" "IN_SYNC" in
  let store := Sample.one_record "scan-1" "job-42" in
  extractStackNameFromArn (stack_id (detail event1))
  = extractStackNameFromArn (stack_id (detail event2)) /\
  event1 <> event2 /\
  reads (trace (invoke (handler svc event1) store).2)
  = reads (trace (invoke (handler svc event2) store).2) /\
  verdicts (callbacks (trace (invoke (handler svc event1) store).2))
  = verdicts (callbacks (trace (invoke (handler svc event2) store).2)).
Proof.
  intros svc event1 event2 store.
  split; [reflexivity|]. split; [discriminate|].
  apply (lookup_keyed_by_target_and_scan svc event1 event2 store); reflexivity.
Defined.

(** C4 as stated fails: two events that differ only in the scan
    identifier ask for different keys, and only the one whose identifier
    is the stored sort key resolves to the record and calls the pipeline. *)
Lemma lookup_distinguishes_scan_identifiers :
  let svc := Sample.example_stack "CREATE_COMPLETE" None Sample.reliable in
  let event1 := Sample.scan_result Sample.arn "scan-1" "IN_SYNC" in
  let event2 := Sample.scan_result Sample.arn "scan-2" "IN_SYNC" in
  let store := Sample.one_record "scan-1" "job-42" in
  let run1 := invoke (handler svc event1) store in
  let run2 := invoke (handler svc event2) store in
  pk_of event1 = pk_of event2 /\
  reads (trace run1.2)
  = [GetItem "123456789012#ap-northeast-2#example-stack" "scan-1"] /\
  reads (trace run2.2)
  = [GetItem "123456789012#ap-northeast-2#example-stack" "scan-2"] /\
  callbacks (trace run1.2) = [PutJobSuccessResult "job-42"] /\
  callbacks (trace run2.2) = [] /\
  callbacks (trace run1.2) <> callbacks (trace run2.2).
Proof.
  intros svc event1 event2 store run1 run2.
  split_and!; try (vm_compute; reflexivity).
  vm_compute. discriminate.
Qed.

(** C6.  An event of another category, or one whose lookup is rejected,
    finds nothing, or finds an item without [pipeline_job_id], leads to no
    pipeline callback and no write; the table is left as it was and the
    last thing the handler does is log the reason on the error console. *)
Theorem completion_discards_unmatched (svc : Services) (event : ScanEvent)
    (store : gmap (string * string) (gmap string string)) :
  let key := (pk_of event, stack_drift_detection_id (detail event)) in
  let run := invoke (handler svc event) store in
  let matches :=
    String.eqb (detail_type event) "CloudFormation Drift Detection Status Change" in
  detail_type event <> "CloudFormation Drift Detection Status Change"
  \/ getItem_fault svc <> None
  \/ store !! key = None
  \/ (exists Item, store !! key = Some Item /\ Item !! "pipeline_job_id" = None) ->
  callbacks (trace run.2) = [] /\
  writes (trace run.2) = [] /\
  table run.2 = store /\
  run.1 = Fulfilled /\
  last (trace run.2)
  = Some (Console Error (Text
      (if matches
       then "Drift detection event details does not match with db record"
       else "Event detail type not supported."))).
Proof.
  intros key run matches Hcase. subst key run matches. unfold_run.
  destruct (String.eqb (detail_type event) _) eqn:Hcat; cbn; [|done].
  apply String.eqb_eq in Hcat.
  destruct Hcase as [Hne | [Hfault | [Hnone | (Item & Hsome & Hjob)]]].
  - done.
  - by destruct (getItem_fault svc).
  - destruct (getItem_fault svc); cbn; [done|]. by rewrite Hnone.
  - destruct (getItem_fault svc); cbn; [done|]. rewrite Hsome. cbn.
    by rewrite Hjob.
Qed.

(** A result event for a scan nobody is waiting for. *)
Lemma completion_discards_unmatched_sample :
  let svc := Sample.example_stack "CREATE_COMPLETE" None Sample.reliable in
  let event := Sample.scan_result Sample.arn "scan-1" "DRIFTED" in
  let run := invoke (handler svc event) ∅ in
  (∅ : gmap (string * string) (gmap string string))
    !! (pk_of event, stack_drift_detection_id (detail event)) = None /\
  callbacks (trace run.2) = [] /\
  writes (trace run.2) = [] /\
  table run.2 = ∅ /\
  run.1 = Fulfilled /\
  last (trace run.2)
  = Some (Console Error
            (Text "Drift detection event details does not match with db record")).
Proof.
  intros svc event run. split; [reflexivity|].
  apply (completion_discards_unmatched svc event ∅).
  right; right; left. reflexivity.
Defined.

End Completion.

(** * Further properties of the two handlers *)

(** ** The scan initiator, path by path *)

(** Case analysis on what the pipeline answers, in the goal. *)
Ltac answers :=
  repeat match goal with
         | |- context [pipeline_fault ?svc ?n] =>
             destruct (pipeline_fault svc n) eqn:?; cbn
         | |- context [is_ValidationError ?e] =>
             destruct (is_ValidationError e) eqn:?; cbn
         end.

(** Every path of the initiator, one goal per path. *)
Ltac paths svc :=
  unfold_run;
  destruct (describeStacks_reply svc _) as [?out|?err] eqn:?; cbn;
  [ destruct (DriftDetect.stack_found _ _) as [?first|] eqn:?; cbn;
    [ destruct (DriftDetect.status_allowed _) eqn:?; cbn;
      [ destruct (detectStackDrift_reply svc _) as [[[?scanId|]]|?err] eqn:?; cbn;
        [ destruct (String.eqb _ EmptyString) eqn:?; cbn;
          [ | destruct (putItem_fault svc) eqn:?; cbn ]
        | | ]
      | ]
    | rewrite ?new_Error_not_validation; cbn ]
  | ];
  answers.

Section InitiatePaths.
Import DriftDetect.

Lemma status_allowed_iff (first : Stack) :
  status_allowed first = true <->
  exists status, StackStatus first = Some status /\ status ∈ allowed_dd_status_list.
Proof.
  unfold status_allowed. split.
  - intros [Ht Hin]%andb_true_iff. destruct (StackStatus first) as [status|]; [|done].
    exists status. split; [done|]. by apply bool_decide_eq_true_1 in Hin.
  - intros (status & -> & Hin). cbn. rewrite bool_decide_eq_true_2 by done.
    rewrite andb_true_r.
    destruct status; [|done].
    unfold allowed_dd_status_list in Hin. by repeat (apply elem_of_cons in Hin as [Hin|Hin]; [done|]); apply elem_of_nil in Hin.
Qed.

Lemma stack_found_iff (out : DescribeStacksCommandOutput) (params : Params) first :
  stack_found out params = Some first <->
  exists rest, Stacks out = Some (first :: rest) /\ StackName first = stackName params.
Proof.
  unfold stack_found. split.
  - destruct (Stacks out) as [[|s rest]|]; [done| |done].
    case_bool_decide; [|done]. intros [= ->]. eauto.
  - intros (rest & -> & Hn). by rewrite bool_decide_eq_true_2.
Qed.

(** X1.  A scan is requested exactly when the query returned, as its first
    stack, one with the requested name and an allowed status. *)
Theorem scan_requested_iff (svc : Services) (event : JobEvent)
    (store : gmap (string * string) (gmap string string)) :
  let params := UserParameters event in
  let run := invoke (handler svc event) store in
  DetectStackDrift (stackName params) ∈ trace run.2 <->
  exists out first rest status,
    describeStacks_reply svc (stackName params) = Resolved out /\
    Stacks out = Some (first :: rest) /\
    StackName first = stackName params /\
    StackStatus first = Some status /\
    status ∈ allowed_dd_status_list.
Proof.
  intros params run. split.
  - intros Hscan.
    destruct (scan_started_inv _ _ _ Hscan) as (out & first & Hd & Hf & Hs).
    apply stack_found_iff in Hf as (rest & Hst & Hn).
    apply status_allowed_iff in Hs as (status & Hss & Hin).
    by exists out, first, rest, status.
  - intros (out & first & rest & status & Hd & Hst & Hn & Hss & Hin).
    assert (Hf : stack_found out params = Some first)
      by (apply stack_found_iff; eauto).
    assert (Hs : status_allowed first = true)
      by (apply status_allowed_iff; eauto).
    subst run params. unfold_run. rewrite Hd. cbn. rewrite Hf. cbn.
    rewrite Hs. cbn.
    destruct (detectStackDrift_reply svc _) as [[[scanId|]]|err]; cbn;
      try destruct (String.eqb _ EmptyString); cbn;
      try destruct (putItem_fault svc); cbn; answers;
      do 6 apply list_elem_of_further; apply list_elem_of_here.
Qed.

Lemma scan_requested_iff_sample :
  let svc := Sample.example_stack "UPDATE_ROLLBACK_FAILED" (Some "scan-1") Sample.reliable in
  let run := invoke (handler svc (Sample.job "job-42")) ∅ in
  DetectStackDrift (Some "example-stack") ∈ trace run.2.
Proof.
  intros svc run.
  apply (scan_requested_iff svc (Sample.job "job-42") ∅).
  exists (Sample.stable_stack "example-stack" "UPDATE_ROLLBACK_FAILED"),
    {| StackName := Some "example-stack"; StackStatus := Some "UPDATE_ROLLBACK_FAILED" |},
    [], "UPDATE_ROLLBACK_FAILED".
  split_and!; try reflexivity.
  do 3 apply list_elem_of_further. apply list_elem_of_here.
Defined.

(** X2.  An unexpected failure of the target-state query is reported as a job
    failure carrying the serialised error; no scan is requested and the
    table is left alone. *)
Theorem describe_failure_reported (svc : Services) (event : JobEvent)
    (store : gmap (string * string) (gmap string string)) (err : JsThrown) :
  let params := UserParameters event in
  let run := invoke (handler svc event) store in
  describeStacks_reply svc (stackName params) = Rejected err ->
  is_ValidationError err = false ->
  callbacks (trace run.2)
  = [PutJobFailureResult (id event)
       {| message := JSON_stringify err; type := "JobFailed" |}] /\
  scans (trace run.2) = [] /\
  writes (trace run.2) = [] /\
  table run.2 = store.
Proof.
  intros params run Hd Hv. subst run params. unfold_run.
  rewrite Hd. cbn. rewrite Hv. cbn. by destruct (pipeline_fault svc 0).
Qed.

Lemma describe_failure_reported_sample :
  let denied := Sample.named "AccessDenied" in
  let svc :=
    Sample.services (Rejected denied)
      (Resolved {| StackDriftDetectionId := Some "scan-1" |}) Sample.reliable in
  let run := invoke (handler svc (Sample.job "job-42")) ∅ in
  is_ValidationError denied = false /\
  callbacks (trace run.2)
  = [PutJobFailureResult "job-42"
       {| message := JSON_stringify denied; type := "JobFailed" |}] /\
  scans (trace run.2) = [] /\
  writes (trace run.2) = [] /\
  table run.2 = ∅.
Proof.
  intros denied svc run. split; [reflexivity|].
  apply (describe_failure_reported svc (Sample.job "job-42") ∅ denied);
    reflexivity.
Defined.

(** X3.  An unexpected failure of the scan-start call is reported as a job
    failure carrying the serialised error, and nothing is written. *)
Theorem scan_start_failure_reported (svc : Services) (event : JobEvent)
    (store : gmap (string * string) (gmap string string)) (err : JsThrown) :
  let params := UserParameters event in
  let run := invoke (handler svc event) store in
  DetectStackDrift (stackName params) ∈ trace run.2 ->
  detectStackDrift_reply svc (stackName params) = Rejected err ->
  is_ValidationError err = false ->
  callbacks (trace run.2)
  = [PutJobFailureResult (id event)
       {| message := JSON_stringify err; type := "JobFailed" |}] /\
  writes (trace run.2) = [] /\
  table run.2 = store.
Proof.
  intros params run Hscan Hdet Hv.
  destruct (scan_started_inv _ _ _ Hscan) as (out & first & Hd & Hf & Hs).
  subst run params. clear Hscan. unfold_run.
  rewrite Hd. cbn. rewrite Hf. cbn. rewrite Hs. cbn. rewrite Hdet. cbn.
  rewrite Hv. cbn. by destruct (pipeline_fault svc 0).
Qed.

Lemma scan_start_failure_reported_sample :
  let throttled := Sample.named "Throttling" in
  let svc :=
    Sample.services (Resolved (Sample.stable_stack "example-stack" "CREATE_COMPLETE"))
      (Rejected throttled) Sample.reliable in
  let run := invoke (handler svc (Sample.job "job-42")) ∅ in
  DetectStackDrift (Some "example-stack") ∈ trace run.2 /\
  is_ValidationError throttled = false /\
  callbacks (trace run.2)
  = [PutJobFailureResult "job-42"
       {| message := JSON_stringify throttled; type := "JobFailed" |}] /\
  writes (trace run.2) = [] /\
  table run.2 = ∅.
Proof.
  intros throttled svc run.
  assert (Hscan : DetectStackDrift (Some "example-stack") ∈ trace run.2).
  { vm_compute. do 6 apply list_elem_of_further. apply list_elem_of_here. }
  split; [exact Hscan|]. split; [reflexivity|].
  apply (scan_start_failure_reported svc (Sample.job "job-42") ∅ throttled);
    [exact Hscan|reflexivity|reflexivity].
Defined.

(** X4.  When the table rejects the write of a started scan, the job is
    failed with the serialised error, whatever its name; the write was
    attempted once and the table is unchanged. *)
Theorem store_failure_reported (svc : Services) (event : JobEvent)
    (store : gmap (string * string) (gmap string string))
    (scanId : string) (err : JsThrown) :
  let params := UserParameters event in
  let run := invoke (handler svc event) store in
  DetectStackDrift (stackName params) ∈ trace run.2 ->
  detectStackDrift_reply svc (stackName params)
  = Resolved {| StackDriftDetectionId := Some scanId |} ->
  scanId <> EmptyString ->
  putItem_fault svc = Some err ->
  callbacks (trace run.2)
  = [PutJobFailureResult (id event)
       {| message := JSON_stringify err; type := "JobFailed" |}] /\
  writes (trace run.2) = [PutItem (item_of params scanId (id event))] /\
  table run.2 = store.
Proof.
  intros params run Hscan Hdet Hne Hput.
  destruct (scan_started_inv _ _ _ Hscan) as (out & first & Hd & Hf & Hs).
  subst run params. clear Hscan. unfold_run.
  rewrite Hd. cbn. rewrite Hf. cbn. rewrite Hs. cbn. rewrite Hdet. cbn.
  rewrite (proj2 (String.eqb_neq _ _) Hne). cbn. rewrite Hput. cbn.
  by destruct (pipeline_fault svc 0).
Qed.

Lemma store_failure_reported_sample :
  let invalid := Sample.named "ValidationError" in
  let svc :=
    {| describeStacks_reply := fun _ =>
         Resolved (Sample.stable_stack "example-stack" "CREATE_COMPLETE");
       detectStackDrift_reply := fun _ =>
         Resolved {| StackDriftDetectionId := Some "scan-1" |};
       putItem_fault := Some invalid;
       getItem_fault := None;
       pipeline_fault := Sample.reliable |} in
  let run := invoke (handler svc (Sample.job "job-42")) ∅ in
  DetectStackDrift (Some "example-stack") ∈ trace run.2 /\
  is_ValidationError invalid = true /\
  callbacks (trace run.2)
  = [PutJobFailureResult "job-42"
       {| message := JSON_stringify invalid; type := "JobFailed" |}] /\
  table run.2 = ∅.
Proof.
  intros invalid svc run.
  assert (Hscan : DetectStackDrift (Some "example-stack") ∈ trace run.2).
  { vm_compute. do 6 apply list_elem_of_further. apply list_elem_of_here. }
  split; [exact Hscan|]. split; [reflexivity|].
  destruct (store_failure_reported svc (Sample.job "job-42") ∅ "scan-1" invalid)
    as (Hc & _ & Ht); [exact Hscan|reflexivity|discriminate|reflexivity|].
  split; [exact Hc|exact Ht].
Defined.

(** Once the job identifier and the parameters are read: whatever the
    services answer, the invocation queries the target state exactly once,
    requests at most one scan, attempts at most one write, makes at most
    two pipeline callbacks, and every callback it makes is addressed to the
    invoking job. *)
Theorem initiate_call_budget (svc : Services) (event : JobEvent)
    (store : gmap (string * string) (gmap string string)) :
  let t := trace (invoke (handler svc event) store).2 in
  describes t = [DescribeStacks (stackName (UserParameters event))] /\
  length (scans t) <= 1 /\
  length (writes t) <= 1 /\
  length (callbacks t) <= 2 /\
  Forall (fun v => v.2 = id event) (verdicts (callbacks t)).
Proof.
  intros t. subst t. paths svc;
    (split_and!; [reflexivity|cbn; lia..|repeat constructor]).
Qed.

(** Once the job identifier and the parameters are read, every rejection
    of CloudFormation and DynamoDB is caught: what escapes is an error that
    a pipeline call was rejected with. *)
Theorem initiate_rejects_only_on_pipeline_fault (svc : Services) (event : JobEvent)
    (store : gmap (string * string) (gmap string string)) (err : JsThrown) :
  (invoke (handler svc event) store).1 = Failed err ->
  exists n, pipeline_fault svc n = Some err.
Proof.
  paths svc; intros H; try discriminate H; injection H as <-; eauto.
Qed.

Lemma initiate_rejects_only_on_pipeline_fault_sample :
  let gone := Sample.named "JobNotFoundException" in
  let svc :=
    Sample.services (Rejected (Sample.named "ValidationError"))
      (Resolved {| StackDriftDetectionId := None |}) (Sample.first_rejected gone) in
  (invoke (handler svc (Sample.job "job-42")) ∅).1 = Failed gone /\
  exists n, pipeline_fault svc n = Some gone.
Proof.
  intros gone svc.
  assert (H : (invoke (handler svc (Sample.job "job-42")) ∅).1 = Failed gone)
    by (vm_compute; reflexivity).
  split; [exact H|].
  exact (initiate_rejects_only_on_pipeline_fault svc (Sample.job "job-42") ∅ gone H).
Defined.

(** Once the job identifier and the parameters are read, and when the
    pipeline accepts every callback, the invocation ends normally and does
    exactly one of two things: it stores the record of a started scan and
    makes no callback (the job stays pending), or it makes exactly one
    callback and leaves the table as it was. *)
Theorem initiate_resolves_or_pends (svc : Services) (event : JobEvent)
    (store : gmap (string * string) (gmap string string)) :
  let params := UserParameters event in
  let run := invoke (handler svc event) store in
  (forall n, pipeline_fault svc n = None) ->
  run.1 = Fulfilled /\
  ((exists scanId,
      scanId <> EmptyString /\
      detectStackDrift_reply svc (stackName params)
      = Resolved {| StackDriftDetectionId := Some scanId |} /\
      callbacks (trace run.2) = [] /\
      table run.2
      = <[(pk_of params, scanId) := item_of params scanId (id event)]> store)
   \/
   (exists c, callbacks (trace run.2) = [c] /\ table run.2 = store)).
Proof.
  intros params run Hok. subst run params.
  paths svc;
    try match goal with
        | H : pipeline_fault svc _ = Some _ |- _ => rewrite Hok in H; discriminate H
        end;
    (split; [reflexivity|]);
    try (right; eexists; split; reflexivity).
  left. exists scanId. split_and!; [apply String.eqb_neq; assumption|reflexivity..].
Qed.

Lemma initiate_resolves_or_pends_sample :
  let svc := Sample.example_stack "CREATE_COMPLETE" (Some "scan-1") Sample.reliable in
  let run := invoke (handler svc (Sample.job "job-42")) ∅ in
  run.1 = Fulfilled /\
  ((exists scanId,
      scanId <> EmptyString /\
      detectStackDrift_reply svc (Some "example-stack")
      = Resolved {| StackDriftDetectionId := Some scanId |} /\
      callbacks (trace run.2) = [] /\
      table run.2
      = <[("123456789012#ap-northeast-2#example-stack", scanId)
          := Sample.record scanId "job-42"]> ∅)
   \/
   (exists c, callbacks (trace run.2) = [c] /\ table run.2 = ∅)).
Proof.
  intros svc run.
  apply (initiate_resolves_or_pends svc (Sample.job "job-42") ∅).
  intros n. reflexivity.
Defined.

(** X8.  An invocation leaves every record of every other partition key
    untouched: the table it ends with is the table it started from, or that
    table with one item put under its own partition key. *)
Theorem initiate_touches_own_key_only (svc : Services) (event : JobEvent)
    (store : gmap (string * string) (gmap string string)) :
  let params := UserParameters event in
  let run := invoke (handler svc event) store in
  (table run.2 = store \/
   exists scanId,
     table run.2
     = <[(pk_of params, scanId) := item_of params scanId (id event)]> store) /\
  (forall pk sk, pk <> pk_of params -> table run.2 !! (pk, sk) = store !! (pk, sk)).
Proof.
  intros params run.
  assert (H : table run.2 = store \/
    exists scanId,
      table run.2
      = <[(pk_of params, scanId) := item_of params scanId (id event)]> store).
  { subst run params. paths svc; eauto. }
  split; [exact H|]. intros pk sk Hpk.
  destruct H as [-> | [scanId ->]]; [done|].
  rewrite lookup_insert_ne; [done|]. congruence.
Qed.

Lemma initiate_touches_own_key_only_sample :
  let svc := Sample.example_stack "CREATE_COMPLETE" (Some "scan-2") Sample.reliable in
  let store := Sample.one_record "scan-1" "job-1" in
  let run := invoke (handler svc (Sample.job "job-2")) store in
  "other#us-east-1#stack" <> pk_of (UserParameters (Sample.job "job-2")) /\
  table run.2 !! ("other#us-east-1#stack", "scan-9")
  = store !! ("other#us-east-1#stack", "scan-9").
Proof.
  intros svc store run.
  assert (Hpk : "other#us-east-1#stack" <> pk_of (UserParameters (Sample.job "job-2")))
    by (vm_compute; discriminate).
  split; [exact Hpk|].
  destruct (initiate_touches_own_key_only svc (Sample.job "job-2") store)
    as (_ & Hframe).
  exact (Hframe "other#us-east-1#stack" "scan-9" Hpk).
Defined.

End InitiatePaths.

(** ** The completion handler, for every event *)

(** Every path of the completion handler, one goal per path. *)
Ltac completion_paths svc event store :=
  unfold_run;
  destruct (String.eqb (Callback.detail_type event) _) eqn:?; cbn;
  [ destruct (getItem_fault svc) eqn:?; cbn;
    [ | destruct (store !! _) as [?Item|] eqn:?; cbn;
        [ destruct (_ !! "pipeline_job_id") as [?jobId|] eqn:?; cbn;
          [ destruct (String.eqb _ EmptyString) eqn:?; cbn;
            [ | destruct (String.eqb _ "DRIFTED") eqn:?; cbn;
                [ | destruct (String.eqb _ "IN_SYNC") eqn:?; cbn ] ]
          | ]
        | ] ]
  | ];
  repeat match goal with
         | |- context [pipeline_fault ?s ?n] =>
             destruct (pipeline_fault s n) eqn:?; cbn
         end.

Section CompletionPaths.
Import Callback.

(** On an event with all its fields the lookup never throws and never
    changes the table: a rejected [getItem], an absent item and an item
    without [pipeline_job_id] all come back as [undefined], and otherwise
    the stored job identifier is returned. *)
Theorem fetchCallbackDetails_result (svc : Services) (event : ScanEvent) (w : World) :
  let key := (pk_of event, stack_drift_detection_id (detail event)) in
  let found :=
    match getItem_fault svc with
    | Some _ => None
    | None => table w !! key ≫= (fun Item => Item !! "pipeline_job_id")
    end in
  (fetchCallbackDetails svc event w).1 = Normal found /\
  table (fetchCallbackDetails svc event w).2 = table w /\
  reads (trace (fetchCallbackDetails svc event w).2)
  = (reads (trace w) ++ [GetItem key.1 key.2])%list.
Proof.
  intros key found. subst key found. unfold_run. cbn.
  destruct (getItem_fault svc); cbn;
    [|destruct (table w !! _) as [Item|]; cbn;
      [destruct (Item !! "pipeline_job_id"); cbn|]];
    (split_and!; [reflexivity..|]);
    unfold reads; rewrite !List.filter_app; cbn; by rewrite !app_nil_r.
Qed.

(** On an event with all its fields the completion handler only reads:
    it changes nothing in the table and attempts no write; it makes one
    [getItem], under the event's key, when the category matches and none
    otherwise; so a redelivered event is handled exactly like its first
    delivery. *)
Theorem completion_only_reads (svc : Services) (event : ScanEvent)
    (store : gmap (string * string) (gmap string string)) :
  let run := invoke (handler svc event) store in
  table run.2 = store /\
  writes (trace run.2) = [] /\
  reads (trace run.2)
  = (if String.eqb (detail_type event) "CloudFormation Drift Detection Status Change"
     then [GetItem (pk_of event) (stack_drift_detection_id (detail event))]
     else []) /\
  invoke (handler svc event) (table run.2) = run.
Proof.
  intros run.
  assert (H : table run.2 = store /\
    writes (trace run.2) = [] /\
    reads (trace run.2)
    = (if String.eqb (detail_type event) "CloudFormation Drift Detection Status Change"
       then [GetItem (pk_of event) (stack_drift_detection_id (detail event))]
       else [])).
  { subst run. completion_paths svc event store; done. }
  destruct H as (Ht & Hw & Hr). split_and!; try done. by rewrite Ht.
Qed.

(** X11.  The completion handler makes at most one pipeline callback, and
    only ever to the non-empty job identifier stored in the item under the
    event's key. *)
Theorem completion_calls_stored_job_only (svc : Services) (event : ScanEvent)
    (store : gmap (string * string) (gmap string string)) :
  let key := (pk_of event, stack_drift_detection_id (detail event)) in
  let made := verdicts (callbacks (trace (invoke (handler svc event) store).2)) in
  made = [] \/
  exists ok jobId Item,
    made = [(ok, jobId)] /\
    store !! key = Some Item /\
    Item !! "pipeline_job_id" = Some jobId /\
    jobId <> EmptyString.
Proof.
  intros key made. subst key made.
  completion_paths svc event store; try (by left);
    right; eexists _, _, _;
    (split_and!;
      [reflexivity|reflexivity|eassumption|apply String.eqb_neq; assumption]).
Qed.

(** On an event with all its fields, lookup failures never escape the
    completion handler: its promise is rejected only with the error that
    its one pipeline call was rejected with. *)
Theorem completion_rejects_only_on_pipeline_fault (svc : Services)
    (event : ScanEvent) (store : gmap (string * string) (gmap string string))
    (err : JsThrown) :
  let run := invoke (handler svc event) store in
  run.1 = Failed err ->
  pipeline_fault svc 0 = Some err /\ length (callbacks (trace run.2)) = 1.
Proof.
  intros run. subst run.
  completion_paths svc event store; intros H; try discriminate H;
    by injection H as <-.
Qed.

Lemma completion_rejects_only_on_pipeline_fault_sample :
  let gone := Sample.named "JobNotFoundException" in
  let svc := Sample.example_stack "CREATE_COMPLETE" None (Sample.first_rejected gone) in
  let run :=
    invoke (handler svc (Sample.scan_result Sample.arn "scan-1" "IN_SYNC"))
      (Sample.one_record "scan-1" "job-42") in
  run.1 = Failed gone /\
  pipeline_fault svc 0 = Some gone /\ length (callbacks (trace run.2)) = 1.
Proof.
  intros gone svc run.
  assert (H : run.1 = Failed gone) by (vm_compute; reflexivity).
  split; [exact H|].
  exact (completion_rejects_only_on_pipeline_fault svc
           (Sample.scan_result Sample.arn "scan-1" "IN_SYNC")
           (Sample.one_record "scan-1" "job-42") gone H).
Defined.

End CompletionPaths.

(** ** Parsing the stack identifier *)

Section Pieces.
Variable sep : ascii.

(** A string with a separator splits at its first one. *)
Lemma occurs_first s :
  Js.occurs sep s = true ->
  exists a b, s = a +:+ String sep b /\ Js.occurs sep a = false.
Proof.
  induction s as [|c s IH]; simpl; [done|].
  destruct (Ascii.eqb c sep) eqn:Hc; simpl.
  - intros _. apply Ascii.eqb_eq in Hc as ->. by exists EmptyString, s.
  - intros (a & b & -> & Ha)%IH. exists (String c a), b. simpl. by rewrite Hc.
Qed.

(** There is a second piece exactly when the separator occurs. *)
Lemma second_piece_None s :
  Js.split sep s !! 1%nat = None <-> Js.occurs sep s = false.
Proof.
  split.
  - intros H. destruct (Js.occurs sep s) eqn:Ho; [|done].
    destruct (occurs_first s Ho) as (a & b & -> & Ha).
    rewrite split_first in H by done.
    destruct (Js.split sep b) as [|p ps] eqn:E; [|done].
    exfalso. by eapply split_nonempty.
  - intros H. by rewrite split_no_sep.
Qed.

(** No piece contains the separator. *)
Lemma piece_no_sep s p : p ∈ Js.split sep s -> Js.occurs sep p = false.
Proof.
  revert p. induction s as [|c s IH]; simpl; intros p.
  - by intros ->%list_elem_of_singleton.
  - destruct (Ascii.eqb c sep) eqn:Hc.
    + intros [->|Hp]%elem_of_cons; [done|]. by apply IH.
    + destruct (Js.split sep s) as [|q qs] eqn:E.
      { exfalso. by eapply split_nonempty. }
      intros [->|Hp]%elem_of_cons.
      * simpl. rewrite Hc. simpl. apply IH. by left.
      * apply IH. by right.
Qed.

(** A piece has only characters of the string it was cut from. *)
Lemma piece_chars c s p :
  p ∈ Js.split sep s -> Js.occurs c s = false -> Js.occurs c p = false.
Proof.
  revert p. induction s as [|d s IH]; simpl; intros p.
  - by intros ->%list_elem_of_singleton.
  - intros Hp [Hd Hs]%orb_false_elim. destruct (Ascii.eqb d sep).
    + apply elem_of_cons in Hp as [->|Hp]; [done|]. by apply IH.
    + destruct (Js.split sep s) as [|q qs] eqn:E.
      { exfalso. by eapply split_nonempty. }
      apply elem_of_cons in Hp as [->|Hp].
      * simpl. rewrite Hd. simpl. apply IH; [by left|done].
      * apply IH; [by right|done].
Qed.
End Pieces.

Lemma pop_elem l x : Js.pop l = Some x -> x ∈ l.
Proof.
  unfold Js.pop. intros H. apply last_Some in H as [l' ->].
  apply elem_of_app. right. by left.
Qed.

(** X13.  Only what follows the last colon matters: anything before a colon
    can be dropped without changing the parsed name. *)
Theorem extractStackNameFromArn_after_colon (before rest : string) :
  extractStackNameFromArn (before +:+ String ":" rest)
  = extractStackNameFromArn rest.
Proof. unfold extractStackNameFromArn. by rewrite pop_split_app. Qed.

(** X14.  The [''] fallback of the optional chaining is never taken: on every
    string the function returns the second slash-delimited segment of the
    last colon-delimited segment, [undefined] when there is none. *)
Theorem extractStackNameFromArn_total (arn : string) :
  extractStackNameFromArn arn = second_segment_of_last arn.
Proof.
  unfold extractStackNameFromArn, second_segment_of_last.
  rewrite pop_last_default by apply split_nonempty. cbn.
  generalize (Js.split "/" (List.last (Js.split ":" arn) EmptyString)).
  intros l. destruct l as [|x [|y l]]; done.
Qed.

(** X15.  On an identifier whose part after the last colon has no slash, the
    parsed name is [undefined], and only then. *)
Theorem extractStackNameFromArn_undefined (before tail : string) :
  Js.occurs ":" tail = false ->
  (extractStackNameFromArn (before +:+ String ":" tail) = None
   <-> Js.occurs "/" tail = false) /\
  (extractStackNameFromArn tail = None <-> Js.occurs "/" tail = false).
Proof.
  intros Ht.
  assert (H : extractStackNameFromArn tail = None <-> Js.occurs "/" tail = false).
  { unfold extractStackNameFromArn. rewrite split_no_sep by done. cbn.
    apply second_piece_None. }
  split; [|exact H].
  unfold extractStackNameFromArn in *. by rewrite pop_split_app.
Qed.

Lemma extractStackNameFromArn_undefined_sample :
  Js.occurs ":" "example-stack" = false /\
  Js.occurs "/" "example-stack" = false /\
  extractStackNameFromArn "arn:aws:cloudformation:example-stack" = None /\
  Callback.pk_of (Sample.scan_result "arn:aws:cloudformation:example-stack"
                    "scan-1" "IN_SYNC")
  = "123456789012#ap-northeast-2#undefined".
Proof.
  split; [reflexivity|]. split; [reflexivity|].
  assert (H : extractStackNameFromArn "arn:aws:cloudformation:example-stack" = None).
  { apply (extractStackNameFromArn_undefined "arn:aws:cloudformation" "example-stack");
      reflexivity. }
  split; [exact H|]. unfold Callback.pk_of. cbn [Callback.detail Callback.stack_id
    Sample.scan_result]. rewrite H. reflexivity.
Defined.

(** X16.  A parsed name never contains a slash or a colon. *)
Theorem extractStackNameFromArn_clean (arn name : string) :
  extractStackNameFromArn arn = Some name ->
  Js.occurs "/" name = false /\ Js.occurs ":" name = false.
Proof.
  unfold extractStackNameFromArn.
  destruct (Js.pop (Js.split ":" arn)) as [tail|] eqn:Hpop; cbn.
  - intros Hname%list_elem_of_lookup_2. split.
    + by eapply piece_no_sep.
    + eapply piece_chars; [exact Hname|].
      eapply piece_no_sep. by apply pop_elem.
  - apply last_None in Hpop. exfalso. by eapply split_nonempty.
Qed.

Lemma extractStackNameFromArn_clean_sample :
  extractStackNameFromArn "arn:aws:x:stack/a/b:stack/my-stack/id/more"
  = Some "my-stack" /\
  Js.occurs "/" "my-stack" = false /\ Js.occurs ":" "my-stack" = false.
Proof.
  split; [reflexivity|].
  apply (extractStackNameFromArn_clean
           "arn:aws:x:stack/a/b:stack/my-stack/id/more" "my-stack").
  reflexivity.
Defined.

(** ** The handshake: initiator and completion handler together *)

Lemma split_key (a r n : string) :
  Js.occurs "#" a = false -> Js.occurs "#" r = false -> Js.occurs "#" n = false ->
  Js.split "#" (a +:+ "#" +:+ r +:+ "#" +:+ n) = [a; r; n].
Proof.
  intros Ha Hr Hn.
  change (a +:+ "#" +:+ r +:+ "#" +:+ n)
    with (a +:+ String "#" (r +:+ String "#" n)).
  rewrite split_first by done. rewrite split_first by done.
  by rewrite split_no_sep.
Qed.

(** X17.  Targets whose account, region and stack name contain no [#] never
    share a partition key. *)
Theorem pk_of_injective (a r n a' r' n' : string) :
  Js.occurs "#" a = false -> Js.occurs "#" r = false -> Js.occurs "#" n = false ->
  Js.occurs "#" a' = false -> Js.occurs "#" r' = false -> Js.occurs "#" n' = false ->
  DriftDetect.pk_of (params_of a r n) = DriftDetect.pk_of (params_of a' r' n') ->
  a = a' /\ r = r' /\ n = n'.
Proof.
  intros Ha Hr Hn Ha' Hr' Hn' Hpk. unfold DriftDetect.pk_of in Hpk. cbn in Hpk.
  apply (f_equal (Js.split "#")) in Hpk.
  change (Js.split "#" (a +:+ "#" +:+ r +:+ "#" +:+ n)
          = Js.split "#" (a' +:+ "#" +:+ r' +:+ "#" +:+ n')) in Hpk.
  rewrite !split_key in Hpk by done. by injection Hpk.
Qed.

Lemma pk_of_injective_sample :
  Js.occurs "#" "123456789012" = false /\
  Js.occurs "#" "ap-northeast-2" = false /\
  Js.occurs "#" "example-stack" = false /\
  Js.occurs "#" "us-east-1" = false /\
  Js.occurs "#" "other-stack" = false /\
  DriftDetect.pk_of (params_of "123456789012" "ap-northeast-2" "example-stack")
  <> DriftDetect.pk_of (params_of "123456789012" "us-east-1" "other-stack").
Proof.
  do 5 (split; [reflexivity|]). intros Hpk.
  destruct (pk_of_injective "123456789012" "ap-northeast-2" "example-stack"
              "123456789012" "us-east-1" "other-stack")
    as (_ & Hregion & _); [reflexivity..|exact Hpk|discriminate Hregion].
Defined.








(** ** The CDK app entry point *)

(** X20.  The deployed stack is never named with an empty prefix: a missing
    or empty [appName] gives [demo-drift-detection-prereq], any other one
    is kept in front of the fixed suffix. *)
Theorem app_stackName_prefix (appName : option string) :
  exists p,
    App.stackName appName = p +:+ "-drift-detection-prereq" /\
    p <> EmptyString /\
    (p = "demo" /\ Js.truthy appName = false \/ appName = Some p).
Proof.
  unfold App.stackName, App.stackPrefix.
  destruct appName as [[|c s]|]; cbn.
  - exists "demo". split_and!; [done..|by left].
  - exists (String c s). split_and!; [done..|by right].
  - exists "demo". split_and!; [done..|by left].
Qed.

(** ** The initiator from the raw event *)

Section InitiateEntry.
Import DriftDetect.

(** A rejection that escapes [DriftDetect.handler] is the rejection of the
    last pipeline call it made. *)
Lemma handler_rejection_is_last_callback (svc : Services) (event : JobEvent)
    (store : gmap (string * string) (gmap string string)) (err : JsThrown) :
  let run := invoke (handler svc event) store in
  run.1 = Failed err ->
  callbacks (trace run.2) <> [] /\
  pipeline_fault svc (length (callbacks (trace run.2)) - 1) = Some err.
Proof.
  intros run. subst run.
  enough (Hany : forall Q : nat -> Prop,
    (forall n e, pipeline_fault svc n = Some e -> e = err -> Q n) ->
    (invoke (handler svc event) store).1 = Failed err ->
    callbacks (trace (invoke (handler svc event) store).2) <> [] /\
    Q (length (callbacks (trace (invoke (handler svc event) store).2)) - 1)).
  { apply (Hany (fun n => pipeline_fault svc n = Some err)).
    by intros n e He <-. }
  intros Q HQ.
  paths svc; intros H; try discriminate H; injection H as <-;
    (split; [discriminate|cbn; eapply HQ; [eassumption|reflexivity]]).
Qed.

Variable JSON_parse : string -> Reply DriftDetectEntry.Parsed.

Lemma entry_started (svc : Services) (event : DriftDetectEntry.Event)
    (store : gmap (string * string) (gmap string string)) (job : JobEvent) :
  DriftDetectEntry.startup JSON_parse event = Resolved job ->
  invoke (DriftDetectEntry.handler JSON_parse svc event) store
  = invoke (handler svc job) store.
Proof. intros H. unfold DriftDetectEntry.handler. by rewrite H. Qed.

Lemma entry_not_started (svc : Services) (event : DriftDetectEntry.Event)
    (store : gmap (string * string) (gmap string string)) (err : JsThrown) :
  DriftDetectEntry.startup JSON_parse event = Rejected err ->
  invoke (DriftDetectEntry.handler JSON_parse svc event) store
  = (Failed err, {| table := store; trace := [Console Info (Dump "event")] |}).
Proof. intros H. unfold DriftDetectEntry.handler. by rewrite H. Qed.

Lemma startup_job (event : DriftDetectEntry.Event) (job : JobEvent) :
  DriftDetectEntry.startup JSON_parse event = Resolved job ->
  exists raw,
    DriftDetectEntry.CodePipeline_job event = Some raw /\
    id job = DriftDetectEntry.id raw.
Proof.
  unfold DriftDetectEntry.startup.
  destruct (DriftDetectEntry.CodePipeline_job event) as [raw|]; cbn; [|done].
  intros H. exists raw. split; [done|].
  repeat (case_match; try discriminate H). by injection H as <-.
Qed.

(** X5.  Whatever the event and the services, one invocation requests at
    most one scan, attempts at most one write and makes at most two
    pipeline callbacks, each addressed to the job identifier of the event.
    It queries the target state exactly once when lines 41 to 47 produce a
    job identifier and parameters; when they throw, the console line of 39
    is all it did. *)
Theorem entry_call_budget (svc : Services) (event : DriftDetectEntry.Event)
    (store : gmap (string * string) (gmap string string)) :
  let t := trace (invoke (DriftDetectEntry.handler JSON_parse svc event) store).2 in
  match DriftDetectEntry.startup JSON_parse event with
  | Resolved job => describes t = [DescribeStacks (stackName (UserParameters job))]
  | Rejected _ => t = [Console Info (Dump "event")]
  end /\
  length (scans t) <= 1 /\
  length (writes t) <= 1 /\
  length (callbacks t) <= 2 /\
  (forall raw, DriftDetectEntry.CodePipeline_job event = Some raw ->
     Forall (fun v => v.2 = DriftDetectEntry.id raw) (verdicts (callbacks t))).
Proof.
  intros t. subst t.
  destruct (DriftDetectEntry.startup JSON_parse event) as [job|err] eqn:Hs.
  - rewrite (entry_started _ _ _ _ Hs).
    destruct (initiate_call_budget svc job store) as (Hd & Hsc & Hw & Hc & Hv).
    split_and!; try done.
    intros raw Hraw. destruct (startup_job _ _ Hs) as (raw' & Hraw' & Hid).
    rewrite Hraw in Hraw'. injection Hraw' as <-. by rewrite <- Hid.
  - rewrite (entry_not_started _ _ _ _ Hs). cbn.
    split_and!; try done; lia.
Qed.

(** X6.  The promise of the handler is rejected in two ways only: lines
    41 to 47 threw (a property missing from the event, or
    [UserParameters] that do not parse), and then nothing but the console
    line has happened; or the job identifier and the parameters were read
    and the last pipeline call the handler made was rejected with that
    error.  No rejection of CloudFormation or DynamoDB escapes. *)
Theorem entry_rejection_causes (svc : Services) (event : DriftDetectEntry.Event)
    (store : gmap (string * string) (gmap string string)) (err : JsThrown) :
  let run := invoke (DriftDetectEntry.handler JSON_parse svc event) store in
  run.1 = Failed err ->
  (DriftDetectEntry.startup JSON_parse event = Rejected err /\
   trace run.2 = [Console Info (Dump "event")] /\
   table run.2 = store)
  \/
  ((exists job, DriftDetectEntry.startup JSON_parse event = Resolved job) /\
   callbacks (trace run.2) <> [] /\
   pipeline_fault svc (length (callbacks (trace run.2)) - 1) = Some err).
Proof.
  intros run. subst run.
  destruct (DriftDetectEntry.startup JSON_parse event) as [job|err'] eqn:Hs.
  - rewrite (entry_started _ _ _ _ Hs). intros H. right.
    split; [by exists job|]. by apply handler_rejection_is_last_callback.
  - rewrite (entry_not_started _ _ _ _ Hs). cbn. intros [= <-]. by left.
Qed.

(** X7.  When the pipeline accepts every callback, an invocation does
    exactly one of three things: lines 41 to 47 throw, the promise is
    rejected and nothing is called or written; or it ends normally having
    stored the record of a started scan and made no callback (the job
    stays pending); or it ends normally having made exactly one callback
    and left the table as it was. *)
Theorem entry_resolves_or_pends (svc : Services) (event : DriftDetectEntry.Event)
    (store : gmap (string * string) (gmap string string)) :
  let run := invoke (DriftDetectEntry.handler JSON_parse svc event) store in
  (forall n, pipeline_fault svc n = None) ->
  (exists err,
     DriftDetectEntry.startup JSON_parse event = Rejected err /\
     run.1 = Failed err /\
     trace run.2 = [Console Info (Dump "event")] /\
     table run.2 = store)
  \/
  (exists job scanId,
     DriftDetectEntry.startup JSON_parse event = Resolved job /\
     run.1 = Fulfilled /\
     scanId <> EmptyString /\
     detectStackDrift_reply svc (stackName (UserParameters job))
     = Resolved {| StackDriftDetectionId := Some scanId |} /\
     callbacks (trace run.2) = [] /\
     table run.2
     = <[(pk_of (UserParameters job), scanId)
         := item_of (UserParameters job) scanId (id job)]> store)
  \/
  (exists job c,
     DriftDetectEntry.startup JSON_parse event = Resolved job /\
     run.1 = Fulfilled /\
     callbacks (trace run.2) = [c] /\
     table run.2 = store).
Proof.
  intros run Hok. subst run.
  destruct (DriftDetectEntry.startup JSON_parse event) as [job|err] eqn:Hs.
  - rewrite (entry_started _ _ _ _ Hs). right.
    destruct (initiate_resolves_or_pends svc job store Hok)
      as (Hdone & [(scanId & Hid & Hdet & Hc & Ht) | (c & Hc & Ht)]).
    + left. by exists job, scanId.
    + right. by exists job, c.
  - rewrite (entry_not_started _ _ _ _ Hs). left. by exists err.
Qed.

End InitiateEntry.

Lemma entry_call_budget_sample :
  let event := EntrySample.job_event "job-42" (Some "{}") in
  let svc := Sample.example_stack "CREATE_COMPLETE" (Some "scan-1") Sample.reliable in
  let t :=
    trace (invoke (DriftDetectEntry.handler EntrySample.reads_example svc event) ∅).2 in
  describes t = [DescribeStacks (Some "example-stack")] /\
  length (callbacks t) <= 2 /\
  Forall (fun v => v.2 = "job-42") (verdicts (callbacks t)).
Proof.
  intros event svc t.
  destruct (entry_call_budget EntrySample.reads_example svc event ∅)
    as (Hd & _ & _ & Hc & Hv).
  split; [exact Hd|]. split; [exact Hc|]. exact (Hv _ eq_refl).
Defined.

Lemma entry_rejection_causes_sample :
  let event := EntrySample.job_event "job-42" None in
  let svc := Sample.example_stack "CREATE_COMPLETE" (Some "scan-1") Sample.reliable in
  let run := invoke (DriftDetectEntry.handler EntrySample.rejects svc event) ∅ in
  run.1 = Failed EntrySample.SyntaxError /\
  ((DriftDetectEntry.startup EntrySample.rejects event
    = Rejected EntrySample.SyntaxError /\
    trace run.2 = [Console Info (Dump "event")] /\
    table run.2 = ∅)
   \/
   ((exists job, DriftDetectEntry.startup EntrySample.rejects event = Resolved job) /\
    callbacks (trace run.2) <> [] /\
    pipeline_fault svc (length (callbacks (trace run.2)) - 1)
    = Some EntrySample.SyntaxError)).
Proof.
  intros event svc run.
  assert (H : run.1 = Failed EntrySample.SyntaxError) by reflexivity.
  split; [exact H|].
  exact (entry_rejection_causes EntrySample.rejects svc event ∅
           EntrySample.SyntaxError H).
Defined.

Lemma entry_resolves_or_pends_sample :
  let event := EntrySample.job_event "job-42" (Some "{}") in
  let svc := Sample.example_stack "UPDATE_IN_PROGRESS" (Some "scan-1") Sample.reliable in
  let run := invoke (DriftDetectEntry.handler EntrySample.reads_example svc event) ∅ in
  (forall n, pipeline_fault svc n = None) /\
  ((exists err,
      DriftDetectEntry.startup EntrySample.reads_example event = Rejected err /\
      run.1 = Failed err /\
      trace run.2 = [Console Info (Dump "event")] /\
      table run.2 = ∅)
   \/
   (exists job scanId,
      DriftDetectEntry.startup EntrySample.reads_example event = Resolved job /\
      run.1 = Fulfilled /\
      scanId <> EmptyString /\
      detectStackDrift_reply svc
        (DriftDetect.stackName (DriftDetect.UserParameters job))
      = Resolved {| StackDriftDetectionId := Some scanId |} /\
      callbacks (trace run.2) = [] /\
      table run.2
      = <[(DriftDetect.pk_of (DriftDetect.UserParameters job), scanId)
          := DriftDetect.item_of (DriftDetect.UserParameters job) scanId
               (DriftDetect.id job)]> ∅)
   \/
   (exists job c,
      DriftDetectEntry.startup EntrySample.reads_example event = Resolved job /\
      run.1 = Fulfilled /\
      callbacks (trace run.2) = [c] /\
      table run.2 = ∅)).
Proof.
  intros event svc run.
  assert (Hok : forall n, pipeline_fault svc n = None) by (intros n; reflexivity).
  split; [exact Hok|].
  exact (entry_resolves_or_pends EntrySample.reads_example svc event ∅ Hok).
Defined.

(** ** The completion handler from the raw event *)

Ltac unfold_entry :=
  cbv [invoke CallbackEntry.handler CallbackEntry.fetchCallbackDetails
       CallbackEntry.status_of CallbackEntry.drift_message
       CallbackEntry.extractStackName CallbackEntry.key_of lift read
       sendSuccess sendFailure putJobSuccessResult putJobFailureResult
       pipeline_reply getItem await
       console_info console_error console_debug console_dump call try_catch
       throw return_ mbind mret M_bind M_ret option_bind].

(** Every path of the completion handler on a raw event, one goal per
    path. *)
Ltac entry_paths svc store :=
  unfold_entry; cbn;
  repeat match goal with
         | |- context [bool_decide ?P] => destruct (bool_decide P) eqn:?; cbn
         | |- context [getItem_fault svc] => destruct (getItem_fault svc) eqn:?; cbn
         | |- context [store !! ?k] => destruct (store !! k) as [?Item|] eqn:?; cbn
         | |- context [?Item !! "pipeline_job_id"] =>
             destruct (Item !! "pipeline_job_id") as [?jobId|] eqn:?; cbn
         | |- context [String.eqb ?j EmptyString] =>
             destruct (String.eqb j EmptyString) eqn:?; cbn
         | |- context [pipeline_fault ?s ?n] =>
             destruct (pipeline_fault s n) eqn:?; cbn
         end.

Section CompletionEntry.
Import CallbackEntry.

(** On an event with all its fields the raw handler is the handler of the
    complete event. *)
Lemma complete_handler (svc : Services) (event : Callback.ScanEvent) (w : World) :
  handler svc (complete event) w = Callback.handler svc event w.
Proof.
  unfold_entry. unfold_run. unfold complete, Callback.pk_of. cbn.
  destruct event as [dt acct reg [arn sk [status]]]; cbn.
  destruct (String.eqb_spec dt "CloudFormation Drift Detection Status Change")
    as [->|Hdt].
  2:{ rewrite bool_decide_eq_false_2 by congruence. done. }
  rewrite bool_decide_eq_true_2 by done. cbn.
  destruct (getItem_fault svc); cbn; [done|].
  destruct (table w !! _) as [Item|]; cbn; [|done].
  destruct (Item !! "pipeline_job_id") as [jobId|]; cbn; [|done].
  destruct (String.eqb jobId EmptyString); cbn; [done|].
  destruct (String.eqb_spec status "DRIFTED") as [->|Hd].
  { rewrite bool_decide_eq_true_2 by done. cbn.
    by destruct (pipeline_fault svc _). }
  rewrite bool_decide_eq_false_2 by congruence. cbn.
  destruct (String.eqb_spec status "IN_SYNC") as [->|Hs].
  { rewrite bool_decide_eq_true_2 by done. cbn.
    by destruct (pipeline_fault svc _). }
  rewrite bool_decide_eq_false_2 by congruence. done.
Qed.

(** X9.  [fetchCallbackDetails] throws in one case only: the event has no
    [detail] or no [detail.stack-id], and then a [TypeError] leaves it
    before any [getItem].  Otherwise it makes one [getItem] under the
    event's key and returns the stored job identifier, or [undefined] when
    the read is rejected, the item is absent, or the item has no
    [pipeline_job_id].  It never writes, never calls the pipeline and never
    changes the table. *)
Theorem entry_fetchCallbackDetails_result (svc : Services) (event : Event) (w : World) :
  let run := fetchCallbackDetails svc event w in
  match key_of event with
  | Some key =>
      run.1 = Normal
                match getItem_fault svc with
                | Some _ => None
                | None => table w !! key ≫= (fun Item => Item !! "pipeline_job_id")
                end /\
      reads (trace run.2) = (reads (trace w) ++ [GetItem key.1 key.2])%list
  | None =>
      (exists property,
         run.1 = Throw (TypeError ("Cannot read properties of undefined (reading '"
                                   +:+ property +:+ "')"))) /\
      reads (trace run.2) = reads (trace w)
  end /\
  table run.2 = table w /\
  writes (trace run.2) = writes (trace w) /\
  callbacks (trace run.2) = callbacks (trace w).
Proof.
  intros run. subst run.
  destruct event as [dt acct reg [[[arn|] sk st]|]]; unfold_entry; cbn;
    [destruct (getItem_fault svc); cbn;
      [|destruct (table w !! _) as [Item|]; cbn;
        [destruct (Item !! "pipeline_job_id"); cbn|]]
    | | ];
    unfold reads, writes, callbacks; rewrite !List.filter_app; cbn;
    repeat rewrite List.app_nil_r;
    (split_and!; try reflexivity).
  - by exists "split".
  - by exists "stack-id".
Qed.

(** X10.  The completion handler only reads.  For every event, complete
    or not, and every answer of the services it changes nothing in the
    table and attempts no write; it makes one [getItem], under the event's
    key, when the category matches and the event has a [detail.stack-id],
    and none otherwise; so a redelivered event is handled exactly like its
    first delivery. *)
Theorem entry_completion_only_reads (svc : Services) (event : Event)
    (store : gmap (string * string) (gmap string string)) :
  let run := invoke (handler svc event) store in
  table run.2 = store /\
  writes (trace run.2) = [] /\
  reads (trace run.2)
  = (if bool_decide
          (detail_type event = Some "CloudFormation Drift Detection Status Change")
     then match key_of event with
          | Some key => [GetItem key.1 key.2]
          | None => []
          end
     else []) /\
  invoke (handler svc event) (table run.2) = run.
Proof.
  intros run.
  assert (H : table run.2 = store /\
    writes (trace run.2) = [] /\
    reads (trace run.2)
    = (if bool_decide
            (detail_type event = Some "CloudFormation Drift Detection Status Change")
       then match key_of event with
            | Some key => [GetItem key.1 key.2]
            | None => []
            end
       else [])).
  { subst run. destruct event as [dt acct reg [[[arn|] sk [st|]]|]];
      entry_paths svc store; done. }
  destruct H as (Ht & Hw & Hr). split_and!; try done. by rewrite Ht.
Qed.

(** X12.  The promise of the completion handler is rejected in three ways
    only, and lookup failures are not among them: the event has no
    [detail] or [detail.stack-id] (a [TypeError] before any read or
    callback); a job was found but the event has no
    [detail.status-details] (a [TypeError] and no callback); or its single
    pipeline call was rejected with that error. *)
Theorem entry_completion_rejection_causes (svc : Services) (event : Event)
    (store : gmap (string * string) (gmap string string)) (err : JsThrown) :
  let run := invoke (handler svc event) store in
  run.1 = Failed err ->
  (key_of event = None /\ reads (trace run.2) = [] /\ callbacks (trace run.2) = [] /\
   exists m, err = TypeError m)
  \/
  (status_of event = Rejected err /\ callbacks (trace run.2) = [] /\
   exists m, err = TypeError m)
  \/
  (pipeline_fault svc 0 = Some err /\ length (callbacks (trace run.2)) = 1).
Proof.
  intros run. subst run.
  destruct event as [dt acct reg [[[arn|] sk [st|]]|]];
    entry_paths svc store; intros H; try discriminate H; injection H as <-;
    first [ by right; right
          | by right; left; split_and!; [..|eexists]
          | by left; split_and!; [..|eexists] ].
Qed.

End CompletionEntry.

Lemma entry_completion_rejection_causes_sample :
  let event := EntrySample.without_stack_id "scan-1" "IN_SYNC" in
  let svc := Sample.example_stack "CREATE_COMPLETE" None Sample.reliable in
  let run := invoke (CallbackEntry.handler svc event) (Sample.one_record "scan-1" "job-42") in
  run.1 = Failed (TypeError "Cannot read properties of undefined (reading 'split')") /\
  CallbackEntry.key_of event = None /\
  reads (trace run.2) = [] /\
  callbacks (trace run.2) = [].
Proof.
  intros event svc run.
  assert (H : run.1
    = Failed (TypeError "Cannot read properties of undefined (reading 'split')"))
    by reflexivity.
  split; [exact H|].
  destruct (entry_completion_rejection_causes svc event
              (Sample.one_record "scan-1" "job-42") _ H)
    as [(Hk & Hr & Hc & _) | [(Hs & _) | (Hp & _)]].
  - by split_and!.
  - discriminate Hs.
  - discriminate Hp.
Defined.
